(** * Rawi AI: the chapter-generation workflow

    A shallow embedding of the stateful core of the application:

    - [types.ts]: [Genre], [Tone], [NovelConfig], [Chapter], [NovelData],
      [AppState];
    - [services/geminiService.ts]: [generateNovelOutline],
      [generatePlotTwist], [generateChapterContent];
    - [App.tsx]: [handleStart], [handleGenerateChapter], [handleTwist],
      [handleSelectChapter] and the gating of the two screens;
    - [components/NovelReader.tsx]: [handleExport].

    Asynchronous functions are embedded as finite resumption trees
    ([task]): a handler runs until it awaits the provider, and is resumed
    with the provider's outcome.  React state setters are the effects of a
    task; the session state is threaded explicitly by [run]. *)

From Stdlib Require Import String Ascii ZArith List Bool Lia DecimalString.
Import ListNotations.

#[local] Open Scope string_scope.
#[local] Open Scope Z_scope.

(** ** JavaScript values used by the program *)

Module Js.

Definition LF : string := String (ascii_of_nat 10) EmptyString.
Definition DQ : string := String (ascii_of_nat 34) EmptyString.

(** Exceptions the program can raise or observe. *)
Inductive Exn : Type :=
| TypeError                      (* property access on [undefined] *)
| SyntaxError                    (* [JSON.parse] on malformed text *)
| Error (message : string)       (* [new Error(message)] *)
| Rejection (reason : string).   (* provider promise rejected *)

Inductive result (A : Type) : Type :=
| Ok (a : A)
| Raise (e : Exn).
Arguments Ok {A} a.
Arguments Raise {A} e.

(** Truthiness of [string | undefined]: only a non-empty string is
    truthy. *)
Definition truthy_str (v : option string) : bool :=
  match v with
  | Some (String _ _) => true
  | _ => false
  end.

(** Truthiness of [boolean | undefined]. *)
Definition truthy_bool (v : option bool) : bool :=
  match v with
  | Some true => true
  | _ => false
  end.

(** [a || b] on strings. *)
Definition or_str (a : option string) (b : string) : string :=
  match a with
  | Some (String c s) => String c s
  | _ => b
  end.

(** [a || b] on two strings. *)
Definition or_else (a b : string) : string :=
  match a with
  | EmptyString => b
  | _ => a
  end.

(** [a || b] where [b] may itself be [undefined]. *)
Definition or_str_opt (a : option string) (b : option string) : option string :=
  if truthy_str a then a else b.

(** [`${n}`] for an integral number. *)
Definition Number_toString (n : Z) : string :=
  NilZero.string_of_int (Z.to_int n).

(** [`${v}`] for [number | undefined] and [string | undefined]. *)
Definition tpl_num (v : option Z) : string :=
  match v with
  | Some n => Number_toString n
  | None => "undefined"
  end.

Definition tpl_str (v : option string) : string :=
  match v with
  | Some s => s
  | None => "undefined"
  end.

End Js.
Import Js.

(** ** types.ts *)

Inductive Genre : Type :=
| FANTASY | SCI_FI | MYSTERY | ROMANCE | HISTORICAL | DRAMA | HORROR | ADVENTURE.

Definition Genre_value (g : Genre) : string :=
  match g with
  | FANTASY => "خيال"
  | SCI_FI => "خيال علمي"
  | MYSTERY => "غموض"
  | ROMANCE => "رومانسي"
  | HISTORICAL => "تاريخي"
  | DRAMA => "دراما"
  | HORROR => "رعب"
  | ADVENTURE => "مغامرة"
  end.

Inductive Tone : Type :=
| SERIOUS | HUMOROUS | DARK | OPTIMISTIC | MYSTERIOUS.

Definition Tone_value (t : Tone) : string :=
  match t with
  | SERIOUS => "جاد"
  | HUMOROUS => "فكاهي"
  | DARK => "مظلم"
  | OPTIMISTIC => "متفائل"
  | MYSTERIOUS => "غامض"
  end.

(** [NovelConfig].  A string enum member is its string value at run time,
    and the form state can hold any string there (the random-idea path
    casts the provider's reply), so [genre] and [tone] are strings. *)
Module Config.
Record t : Type := mk {
  title : string;
  genre : string;
  tone : string;
  protagonist : string;
  setting : string;
  plotSummary : string;
  targetAudience : string
}.
End Config.
Definition NovelConfig : Type := Config.t.

(** The [config] slot of the session: [None] is the initial
    [{} as NovelConfig], every field of which reads as [undefined]. *)
Definition ConfigObj : Type := option NovelConfig.

Definition cfg (field : NovelConfig -> string) (c : ConfigObj) : string :=
  tpl_str (option_map field c).

(** [Chapter] as an object at run time.  [content] and [isGenerating] are
    optional in the interface; [id], [title] and [summary] are optional
    here as well because [{ ...outline[i], isGenerating: true }] on an
    absent element yields an object that lacks them. *)
Record Chapter : Type := mkChapter {
  id : option Z;
  title : option string;
  summary : option string;
  content : option string;
  isGenerating : option bool
}.

(** [{ ...undefined }] *)
Definition emptyObject : Chapter := mkChapter None None None None None.

(** An array element: a hole (no property at that index), the value
    [undefined], or a chapter object. *)
Inductive slot : Type :=
| Hole
| Undef
| Obj (c : Chapter).

Definition ChapterArray : Type := list slot.

Record NovelData : Type := mkNovelData {
  config : ConfigObj;
  outline : ChapterArray;
  currentChapterIndex : Z
}.

Inductive AppState : Type :=
| SETUP | GENERATING_OUTLINE | READING.

(** ** Array operations, with what JavaScript does out of range *)

Module Arr.

Definition length (a : ChapterArray) : Z := Z.of_nat (List.length a).

(** [a[i]]: [undefined] for a negative or too large index, a hole or an
    [undefined] element. *)
Definition get (a : ChapterArray) (i : Z) : option Chapter :=
  if i <? 0 then None
  else match nth_error a (Z.to_nat i) with
       | Some (Obj c) => Some c
       | _ => None
       end.

(** [[...a]]: iteration reads every index, so a hole becomes an
    [undefined] element. *)
Definition spread (a : ChapterArray) : ChapterArray :=
  map (fun s => match s with Hole => Undef | _ => s end) a.

Fixpoint replace (a : ChapterArray) (n : nat) (c : Chapter) : ChapterArray :=
  match a, n with
  | [], _ => []
  | _ :: r, O => Obj c :: r
  | s :: r, S m => s :: replace r m c
  end.

(** [a[i] = c].  In range the element is replaced; past the end the
    array is extended with holes up to [i]; a negative [i] names an
    ordinary property, not an element, and the elements are unchanged
    (the guard of a handler dereferences [undefined] before any write
    with such an index). *)
Definition set (a : ChapterArray) (i : Z) (c : Chapter) : ChapterArray :=
  if i <? 0 then a
  else if i <? length a then replace a (Z.to_nat i) c
  else (a ++ repeat Hole (Z.to_nat (i - length a)) ++ [Obj c])%list.

(** [a.slice(0, end)]: a negative [end] counts from the end of the
    array; holes are kept. *)
Definition slice0 (a : ChapterArray) (e : Z) : ChapterArray :=
  let k := if e <? 0 then Z.max (length a + e) 0 else Z.min e (length a) in
  firstn (Z.to_nat k) a.

(** [a.map(f)] where [f] reads a property of its argument: holes are
    skipped and stay holes ([None]), an [undefined] element raises. *)
Fixpoint map_obj {B : Type} (f : Chapter -> B) (a : ChapterArray)
  : result (list (option B)) :=
  match a with
  | [] => Ok []
  | Hole :: r =>
      match map_obj f r with Ok l => Ok (None :: l) | Raise e => Raise e end
  | Undef :: _ => Raise TypeError
  | Obj c :: r =>
      match map_obj f r with Ok l => Ok (Some (f c) :: l) | Raise e => Raise e end
  end.

(** [a.filter(c => c.content)]: holes are skipped and dropped, an
    [undefined] element raises; the result is dense. *)
Fixpoint filter_obj (p : Chapter -> bool) (a : ChapterArray)
  : result (list Chapter) :=
  match a with
  | [] => Ok []
  | Hole :: r => filter_obj p r
  | Undef :: _ => Raise TypeError
  | Obj c :: r =>
      match filter_obj p r with
      | Ok l => Ok (if p c then c :: l else l)
      | Raise e => Raise e
      end
  end.

(** [a.join(sep)] on strings and holes: a hole contributes the empty
    string. *)
Definition join (sep : string) (l : list (option string)) : string :=
  String.concat sep (map (fun o => match o with Some s => s | None => "" end) l).

(** The chapters of a dense array. *)
Definition dense (cs : list Chapter) : ChapterArray := map Obj cs.

End Arr.

(** ** The provider: [ai.models.generateContent] *)

Definition MODEL_COMPLEX : string := "gemini-3-pro-preview".
Definition MODEL_FAST : string := "gemini-2.5-flash".
Definition MODEL_TTS : string := "gemini-2.5-flash-preview-tts".

(** The [config] member of a request. *)
Inductive GenConfig : Type :=
| OutlineConfig (systemInstruction : string)   (* JSON reply, with the response schema *)
| TwistConfig                                  (* temperature 1.2 *)
| ContentConfig (thinkingBudget : Z).

Record Request : Type := mkRequest {
  model : string;
  contents : string;
  genConfig : GenConfig
}.

(** What awaiting a request gives: the promise is rejected, or resolves to
    a response whose [text] is a string or [undefined]. *)
Inductive Outcome : Type :=
| Rejected (reason : string)
| Resolved (text : option string).

(** The parsed reply to the outline request.  [chapters = None] is a
    parsed value with no array under [chapters] (the member is not
    listed as required), on which [parsed.chapters.map] raises a
    [TypeError].  An element of the array is [None] when it is [null],
    on which the callback's [c.title] raises a [TypeError], and an item
    otherwise.  A member of an item is [None] when the element does not
    have it, so that it reads [undefined]; that is also the case of an
    element that is a number, a string, a boolean or an array.  The
    response schema and the [Chapter] interface type both members as
    strings, and they are strings here: a [title] or [summary] of
    another JSON type is outside this model, and nothing below speaks
    about such a reply. *)
Record OutlineItem : Type := mkItem {
  item_title : option string;
  item_summary : option string
}.

Record OutlineReply : Type := mkReply {
  chapters : option (list (option OutlineItem))
}.

(** The elements of the array when none is [null]; the [TypeError] of
    the callback otherwise. *)
Fixpoint objectItems (elements : list (option OutlineItem)) : result (list OutlineItem) :=
  match elements with
  | [] => Ok []
  | None :: _ => Raise TypeError
  | Some c :: rest =>
      match objectItems rest with
      | Ok items => Ok (c :: items)
      | Raise e => Raise e
      end
  end.

(** ** Session state and effects (App.tsx) *)

(** The object literal of a chapter update; [None] is a key the literal
    does not have. *)
Record Patch : Type := mkPatch {
  p_summary : option (option string);
  p_content : option string;
  p_isGenerating : option bool
}.

(** [{ ...base, ...patch }] *)
Definition apply_patch (p : Patch) (base : option Chapter) : Chapter :=
  let b := match base with Some c => c | None => emptyObject end in
  mkChapter (id b) (title b)
    (match p_summary p with Some v => v | None => summary b end)
    (match p_content p with Some v => Some v | None => content b end)
    (match p_isGenerating p with Some v => Some v | None => isGenerating b end).

(** The arguments [setNovelData] is called with. *)
Inductive Updater : Type :=
| Replace (nd : NovelData)
    (* setNovelData({ config, outline, currentChapterIndex }) *)
| PatchChapter (index : Z) (p : Patch)
    (* setNovelData(prev => { const newOutline = [...prev.outline];
         newOutline[index] = { ...newOutline[index], ...p };
         return { ...prev, outline: newOutline } }) *)
| SetCursor (index : Z).
    (* setNovelData(prev => ({ ...prev, currentChapterIndex: index })) *)

Definition update (u : Updater) (prev : NovelData) : NovelData :=
  match u with
  | Replace nd => nd
  | PatchChapter index p =>
      let newOutline := Arr.spread (outline prev) in
      let newOutline := Arr.set newOutline index (apply_patch p (Arr.get newOutline index)) in
      mkNovelData (config prev) newOutline (currentChapterIndex prev)
  | SetCursor index =>
      mkNovelData (config prev) (outline prev) index
  end.

Inductive Effect : Type :=
| setAppState (s : AppState)
| setIsLoading (b : bool)
| setError (e : option string)
| setNovelData (u : Updater)
| console_error
| alert (message : string)
| download (filename : string) (text : string).

(** The state of the [App] component, with the alerts shown and the files
    offered for download so far (latest first). *)
Record App : Type := mkApp {
  appState : AppState;
  isLoading : bool;
  error : option string;
  novelData : NovelData;
  alerts : list string;
  downloads : list (string * string)
}.

Definition initialApp : App :=
  mkApp SETUP false None (mkNovelData None [] 0) [] [].

Definition perform (e : Effect) (s : App) : App :=
  match e with
  | setAppState a => mkApp a (isLoading s) (error s) (novelData s) (alerts s) (downloads s)
  | setIsLoading b => mkApp (appState s) b (error s) (novelData s) (alerts s) (downloads s)
  | setError e => mkApp (appState s) (isLoading s) e (novelData s) (alerts s) (downloads s)
  | setNovelData u =>
      mkApp (appState s) (isLoading s) (error s) (update u (novelData s)) (alerts s) (downloads s)
  | console_error => s
  | alert m => mkApp (appState s) (isLoading s) (error s) (novelData s) (m :: alerts s) (downloads s)
  | download f t =>
      mkApp (appState s) (isLoading s) (error s) (novelData s) (alerts s) ((f, t) :: downloads s)
  end.

(** ** Asynchronous functions as resumptions *)

Inductive task (A : Type) : Type :=
| Ret (a : A)                                     (* the promise resolves *)
| Throw (e : Exn)                                 (* the promise is rejected *)
| Act (e : Effect) (k : task A)
| Await (req : Request) (k : Outcome -> task A).  (* await ai.models.generateContent(req) *)
Arguments Ret {A} a.
Arguments Throw {A} e.
Arguments Act {A} e k.
Arguments Await {A} req k.

Fixpoint bind {A B : Type} (t : task A) (f : A -> task B) : task B :=
  match t with
  | Ret a => f a
  | Throw e => Throw e
  | Act e k => Act e (bind k f)
  | Await req k => Await req (fun o => bind (k o) f)
  end.

(** [try { t } catch (err) { h err }] *)
Fixpoint try_catch {A : Type} (t : task A) (h : Exn -> task A) : task A :=
  match t with
  | Ret a => Ret a
  | Throw e => h e
  | Act e k => Act e (try_catch k h)
  | Await req k => Await req (fun o => try_catch (k o) h)
  end.

(** [try { t } finally { f }] *)
Fixpoint try_finally {A : Type} (t : task A) (f : task unit) : task A :=
  match t with
  | Ret a => bind f (fun _ => Ret a)
  | Throw e => bind f (fun _ => Throw e)
  | Act e k => Act e (try_finally k f)
  | Await req k => Await req (fun o => try_finally (k o) f)
  end.

Definition act (e : Effect) : task unit := Act e (Ret tt).

Definition lift {A : Type} (r : result A) : task A :=
  match r with
  | Ok a => Ret a
  | Raise e => Throw e
  end.

Declare Scope task_scope.
Delimit Scope task_scope with task.
Notation "x <- t ;; k" := (bind t (fun x => k))
  (at level 61, t at next level, right associativity) : task_scope.
Notation "t ;; k" := (bind t (fun _ => k))
  (at level 61, right associativity) : task_scope.

(** Where a task stands after it has run as far as it can. *)
Inductive status (A : Type) : Type :=
| Finished (a : A)
| Failed (e : Exn)
| Blocked (req : Request) (k : Outcome -> task A).
Arguments Finished {A} a.
Arguments Failed {A} e.
Arguments Blocked {A} req k.

(** Run a task up to its next await, applying its state updates in
    order. *)
Fixpoint run {A : Type} (t : task A) (s : App) : App * status A :=
  match t with
  | Ret a => (s, Finished a)
  | Throw e => (s, Failed e)
  | Act e k => run k (perform e s)
  | Await req k => (s, Blocked req k)
  end.

(** ** Prompts *)

(** The prompt of [generateNovelOutline]. *)
Definition outlinePrompt (config : NovelConfig) : string :=
  "
    أنت روائي محترف ومحرر أدبي. قم بإنشاء مخطط تفصيلي لرواية بناءً على المعلومات التالية:
    - العنوان: "
  ++ (Config.title config)
  ++ "
    - النوع: "
  ++ (Config.genre config)
  ++ "
    - النغمة/الأسلوب: "
  ++ (Config.tone config)
  ++ "
    - الشخصية الرئيسية: "
  ++ (Config.protagonist config)
  ++ "
    - المكان/الإعداد: "
  ++ (Config.setting config)
  ++ "
    - ملخص الحبكة: "
  ++ (Config.plotSummary config)
  ++ "
    - الجمهور المستهدف: "
  ++ (Config.targetAudience config)
  ++ "

    المطلوب: قم بإنشاء قائمة بـ 5 إلى 10 فصول لهذه الرواية. لكل فصل، قدم عنوانًا وملخصًا موجزًا للأحداث.
  ".

(** The prompt of [generatePlotTwist]. *)
Definition twistPrompt (config : ConfigObj) (chapter : Chapter) (previousChaptersSummary : string) : string :=
  "
    أنت مساعد روائي مبدع. قم بتعديل ملخص الفصل التالي لإضافة "
  ++ DQ
  ++ "حبكة مفاجئة"
  ++ DQ
  ++ " (Plot Twist) أو حدث غير متوقع يقلب الموازين، مع الحفاظ على سياق القصة ونوعها ("
  ++ (cfg Config.genre config)
  ++ ").

    سياق سابق:
    "
  ++ (or_else previousChaptersSummary "بداية القصة.")
  ++ "

    ملخص الفصل الحالي (قبل التعديل):
    "
  ++ tpl_str (summary chapter)
  ++ "

    المطلوب:
    أعد كتابة ملخص هذا الفصل ليتضمن مفاجأة قوية أو كشف مثير أو عقبة غير متوقعة. اجعل الملخص مشوقاً جداً ومختلفاً عما هو متوقع.
    أرجع فقط النص الجديد للملخص بدون مقدمات.
  ".

(** The prompt of [generateChapterContent]. *)
Definition contentPrompt (config : ConfigObj) (chapter : Chapter) (previousChaptersSummary : string) : string :=
  "
    اكتب الفصل التالي من الرواية بالتفصيل.
    
    معلومات الرواية:
    - العنوان: "
  ++ (cfg Config.title config)
  ++ "
    - الأسلوب: "
  ++ (cfg Config.tone config)
  ++ "
    
    الفصل الحالي:
    - رقم الفصل: "
  ++ tpl_num (id chapter)
  ++ "
    - عنوان الفصل: "
  ++ tpl_str (title chapter)
  ++ "
    - ملخص أحداث هذا الفصل (يجب تغطيتها): "
  ++ tpl_str (summary chapter)
  ++ "
    
    سياق سابق (ما حدث قبل هذا الفصل):
    "
  ++ (or_else previousChaptersSummary "هذا هو الفصل الأول.")
  ++ "
    
    تعليمات الكتابة:
    - اكتب باللغة العربية الفصحى السردية الغنية.
    - استخدم الحوار والوصف لبعث الحياة في المشهد.
    - لا تختصر الأحداث، بل اسردها بتفصيل روائي ممتع.
    - تأكد من أن طول الفصل مناسب (حوالي 1000-1500 كلمة).
  ".

(** Run a task to the end, answering its successive requests with the
    outcomes [os]; no other handler runs in between. *)
Fixpoint exec {A : Type} (t : task A) (os : list Outcome) (s : App) : App * status A :=
  match t with
  | Ret a => (s, Finished a)
  | Throw e => (s, Failed e)
  | Act e k => exec k os (perform e s)
  | Await req k =>
      match os with
      | [] => (s, Blocked req k)
      | o :: rest => exec (k o) rest s
      end
  end.

(** The chapter object at index [i] of the session, if there is one. *)
Definition chapterAt (s : App) (i : Z) : option Chapter :=
  Arr.get (outline (novelData s)) i.

(** ** services/geminiService.ts *)

Section Rawi.

(** [process.env.API_KEY], read once when the module is loaded. *)
Variable apiKey : option string.

(** [JSON.parse] on the text of an outline reply: [None] when it raises
    a [SyntaxError]. *)
Variable JSON_parse : string -> option OutlineReply.

#[local] Open Scope task_scope.

Definition systemInstruction_outline : string :=
  "أنت مساعد كتابة إبداعي متخصص في الأدب العربي. يجب أن تكون مخرجاتك باللغة العربية الفصحى السليمة والجذابة.".

(** [parsed.chapters.map((c, index) => ({ id: index + 1, title: c.title,
    summary: c.summary, content: undefined }))] on elements none of which
    is [null], from [index] on. *)
Fixpoint chaptersFrom (index : Z) (items : list OutlineItem) : ChapterArray :=
  match items with
  | [] => []
  | c :: rest =>
      Obj (mkChapter (Some (index + 1)) (item_title c) (item_summary c) None None)
      :: chaptersFrom (index + 1) rest
  end.

Definition generateNovelOutline (config : NovelConfig) : task ChapterArray :=
  if negb (truthy_str apiKey) then Throw (Error "API Key is missing")
  else
    Await (mkRequest MODEL_COMPLEX (outlinePrompt config)
             (OutlineConfig systemInstruction_outline))
      (fun response =>
         match response with
         | Rejected reason => Throw (Rejection reason)
         | Resolved jsonText =>
             match jsonText with
             | Some (String a b) =>
                 try_catch
                   (match JSON_parse (String a b) with
                    | None => Throw SyntaxError
                    | Some parsed =>
                        match chapters parsed with
                        | None => Throw TypeError   (* undefined.map *)
                        | Some elements =>
                            items <- lift (objectItems elements) ;;
                            Ret (chaptersFrom 0 items)
                        end
                    end)
                   (fun e =>
                      act console_error ;;
                      Throw (Error "فشل في معالجة استجابة الذكاء الاصطناعي"))
             | _ => Throw (Error "No content generated")
             end
         end).

Definition generatePlotTwist (config : ConfigObj) (chapter : Chapter)
    (previousChaptersSummary : string) : task (option string) :=
  if negb (truthy_str apiKey) then Throw (Error "API Key is missing")
  else
    Await (mkRequest MODEL_COMPLEX (twistPrompt config chapter previousChaptersSummary)
             TwistConfig)
      (fun response =>
         match response with
         | Rejected reason => Throw (Rejection reason)
         | Resolved text => Ret (or_str_opt text (summary chapter))
         end).

Definition NO_TEXT : string := "عذراً، لم يتم إنشاء نص لهذا الفصل.".

Definition generateChapterContent (config : ConfigObj) (chapter : Chapter)
    (previousChaptersSummary : string) : task string :=
  if negb (truthy_str apiKey) then Throw (Error "API Key is missing")
  else
    Await (mkRequest MODEL_COMPLEX (contentPrompt config chapter previousChaptersSummary)
             (ContentConfig 1024))
      (fun response =>
         match response with
         | Rejected reason => Throw (Rejection reason)
         | Resolved text => Ret (or_str text NO_TEXT)
         end).

(** ** App.tsx *)

Definition MSG_OUTLINE_FAILED : string :=
  "حدث خطأ أثناء توليد مخطط الرواية. يرجى التأكد من المفتاح البرمجي أو المحاولة مرة أخرى.".
Definition MSG_CHAPTER_FAILED : string := "فشل في توليد الفصل. حاول مرة أخرى.".
Definition MSG_TWIST_FAILED : string := "فشل في إضافة الحبكة. حاول مرة أخرى.".

Definition handleStart (config : NovelConfig) : task unit :=
  act (setIsLoading true) ;;
  act (setError None) ;;
  try_finally
    (try_catch
       (outline <- generateNovelOutline config ;;
        act (setNovelData (Replace (mkNovelData (Some config) outline 0))) ;;
        act (setAppState READING))
       (fun err =>
          act console_error ;;
          act (setError (Some MSG_OUTLINE_FAILED))))
    (act (setIsLoading false)).

Definition CHAPTER_WORD : string := "فصل".

(** [`فصل ${c.id}: ${c.summary}`] *)
Definition contextLine (c : Chapter) : string :=
  CHAPTER_WORD ++ " " ++ tpl_num (id c) ++ ": " ++ tpl_str (summary c).

(** [outline.slice(0, index).map(c => ...).join('\n')] *)
Definition contextSummary (outline : ChapterArray) (index : Z) : result string :=
  match Arr.map_obj contextLine (Arr.slice0 outline index) with
  | Ok lines => Ok (Arr.join LF lines)
  | Raise e => Raise e
  end.

Definition patch_generating (b : bool) : Patch := mkPatch None None (Some b).
Definition patch_content (content : string) : Patch :=
  mkPatch None (Some content) (Some false).
Definition patch_summary (newSummary : option string) : Patch :=
  mkPatch (Some newSummary) None None.
Definition patch_twisted (newSummary : option string) (content : string) : Patch :=
  mkPatch (Some newSummary) (Some content) (Some false).

(** The first state update of both chapter handlers. *)
Definition markGenerating (index : Z) : Effect :=
  setNovelData (PatchChapter index (patch_generating true)).

(** [handleGenerateChapter], closed over the [novelData] of the render
    it was created in. *)
Definition handleGenerateChapter (novelData : NovelData) (index : Z) : task unit :=
  match Arr.get (outline novelData) index with
  | None => Throw TypeError              (* chapter.content on undefined *)
  | Some chapter =>
      if truthy_str (content chapter) || truthy_bool (isGenerating chapter)
      then Ret tt
      else
        act (markGenerating index) ;;
        try_catch
          (contextSummary <- lift (contextSummary (outline novelData) index) ;;
           content <- generateChapterContent (config novelData) chapter contextSummary ;;
           act (setNovelData (PatchChapter index (patch_content content))))
          (fun err =>
             act console_error ;;
             act (setNovelData (PatchChapter index (patch_generating false))) ;;
             act (alert MSG_CHAPTER_FAILED))
  end.

(** [{ ...chapter, summary: newSummary }] *)
Definition with_summary (chapter : Chapter) (newSummary : option string) : Chapter :=
  mkChapter (id chapter) (title chapter) newSummary (content chapter)
    (isGenerating chapter).

Definition handleTwist (novelData : NovelData) (index : Z) : task unit :=
  match Arr.get (outline novelData) index with
  | None => Throw TypeError              (* chapter.isGenerating on undefined *)
  | Some chapter =>
      if truthy_bool (isGenerating chapter)
      then Ret tt
      else
        act (markGenerating index) ;;
        try_catch
          (contextSummary <- lift (contextSummary (outline novelData) index) ;;
           newSummary <- generatePlotTwist (config novelData) chapter contextSummary ;;
           act (setNovelData (PatchChapter index (patch_summary newSummary))) ;;
           content <- generateChapterContent (config novelData)
                        (with_summary chapter newSummary) contextSummary ;;
           act (setNovelData (PatchChapter index (patch_twisted newSummary content))))
          (fun err =>
             act console_error ;;
             act (setNovelData (PatchChapter index (patch_generating false))) ;;
             act (alert MSG_TWIST_FAILED))
  end.

Definition handleSelectChapter (index : Z) : task unit :=
  act (setNovelData (SetCursor index)).

(** ** components/NovelReader.tsx *)

(** [`الفصل ${c.id}: ${c.title}\n\n${c.content}`] *)
Definition exportChapter (c : Chapter) : string :=
  "الفصل " ++ tpl_num (id c) ++ ": " ++ tpl_str (title c) ++ LF ++ LF
  ++ tpl_str (content c).

Definition EXPORT_SEPARATOR : string :=
  LF ++ LF ++ "-------------------" ++ LF ++ LF.

(** [handleExport]: the text is offered as the file [`${title}.txt`]. *)
Definition handleExport (data : NovelData) : task unit :=
  fullText <- lift (match Arr.filter_obj (fun c => truthy_str (content c)) (outline data) with
                    | Ok cs => Ok (String.concat EXPORT_SEPARATOR (map exportChapter cs))
                    | Raise e => Raise e
                    end) ;;
  act (download (cfg Config.title (config data) ++ ".txt") fullText).

(** ** The session as a transition system

    A session is the state of [App] together with the handlers that are
    waiting for the provider.  An event is either something the user
    does on the screen that is rendered, or the provider settling one of
    the requests in flight.  Each event runs its handler up to the next
    await; the closure of a handler sees the [novelData] of the last
    render, which is the current one. *)

Record Sys : Type := mkSys {
  app : App;
  pending : list (Outcome -> task unit)
}.

Definition initialSys : Sys := mkSys initialApp [].

Definition launch (t : task unit) (sys : Sys) : Sys :=
  match run t (app sys) with
  | (s', Blocked _ k) => mkSys s' (pending sys ++ [k])
  | (s', _) => mkSys s' (pending sys)
  end.

Inductive Event : Type :=
| Submit (config : NovelConfig)      (* SetupForm: onStart(config) *)
| Generate (index : Z)               (* NovelReader: onGenerateChapter *)
| Twist (index : Z)                  (* NovelReader: onTwist *)
| Select (index : Z)                 (* NovelReader: onSelectChapter *)
| Export                             (* NovelReader: handleExport *)
| DismissError                       (* the error toast: setError(null) *)
| Settle (n : nat) (o : Outcome).    (* the n-th request in flight settles *)

Definition isSetup (s : App) : bool :=
  match appState s with SETUP => true | _ => false end.

Definition isReading (s : App) : bool :=
  match appState s with READING => true | _ => false end.

Fixpoint drop_nth {A : Type} (n : nat) (l : list A) : list A :=
  match l, n with
  | [], _ => []
  | _ :: r, O => r
  | x :: r, S m => x :: drop_nth m r
  end.

(** [fire sys ev] is [None] when the screen does not offer [ev]:
    the form is rendered in [SETUP] and its button is disabled while
    loading; the reader is rendered in [READING] and offers
    [onSelectChapter] for the indices of the outline only (the chapter
    list, and "next chapter" below the last index).  The reader passes
    the cursor to [onGenerateChapter] and [onTwist]; any index is
    allowed here. *)
Definition fire (sys : Sys) (ev : Event) : option Sys :=
  let s := app sys in
  match ev with
  | Submit config =>
      if isSetup s && negb (isLoading s)
      then Some (launch (handleStart config) sys) else None
  | Generate index =>
      if isReading s
      then Some (launch (handleGenerateChapter (novelData s) index) sys) else None
  | Twist index =>
      if isReading s
      then Some (launch (handleTwist (novelData s) index) sys) else None
  | Select index =>
      if isReading s && (0 <=? index) && (index <? Arr.length (outline (novelData s)))
      then Some (launch (handleSelectChapter index) sys) else None
  | Export =>
      if isReading s
      then Some (launch (handleExport (novelData s)) sys) else None
  | DismissError =>
      if truthy_str (error s)
      then Some (launch (act (setError None)) sys) else None
  | Settle n o =>
      match nth_error (pending sys) n with
      | Some k => Some (launch (k o) (mkSys s (drop_nth n (pending sys))))
      | None => None
      end
  end.

Fixpoint fire_all (sys : Sys) (evs : list Event) : option Sys :=
  match evs with
  | [] => Some sys
  | ev :: rest =>
      match fire sys ev with
      | Some sys' => fire_all sys' rest
      | None => None
      end
  end.

Definition reachable (sys : Sys) : Prop :=
  exists evs, fire_all initialSys evs = Some sys.

(** The cursor is an index of the outline. *)
Definition cursor_valid (d : NovelData) : Prop :=
  0 <= currentChapterIndex d < Arr.length (outline d).

(** The items the outline step takes from a reply, when it accepts
    it: the key is set, the text is not empty and parses, and the
    parsed object has a [chapters] array with no [null] element. *)
Definition acceptedOutline (o : Outcome) : option (list OutlineItem) :=
  if truthy_str apiKey then
    match o with
    | Resolved (Some (String a b)) =>
        match JSON_parse (String a b) with
        | Some parsed =>
            match chapters parsed with
            | Some elements =>
                match objectItems elements with
                | Ok items => Some items
                | Raise _ => None
                end
            | None => None
            end
        | None => None
        end
    | _ => None
    end
  else None.

End Rawi.

(** ** Invariants of the session *)

(** The elements are chapter objects numbered [k + 1], [k + 2], ... *)
Fixpoint numbered (k : Z) (a : ChapterArray) : Prop :=
  match a with
  | [] => True
  | Obj c :: rest => id c = Some (k + 1) /\ numbered (k + 1) rest
  | _ :: _ => False
  end.

(** The chapter objects of an array, in order. *)
Fixpoint objects (a : ChapterArray) : list Chapter :=
  match a with
  | [] => []
  | Obj c :: rest => c :: objects rest
  | _ :: rest => objects rest
  end.

(** [c] comes before [d] by id. *)
Definition id_lt (c d : Chapter) : Prop :=
  match id c, id d with
  | Some x, Some y => x < y
  | _, _ => False
  end.

(** Strictly ascending ids. *)
Fixpoint ascending (cs : list Chapter) : Prop :=
  match cs with
  | [] => True
  | c :: rest => Forall (id_lt c) rest /\ ascending rest
  end.

(** What a handler of the reader may still do while [n] chapters exist:
    update a chapter at an index below [n], log, alert, offer a download,
    clear the error. *)
Definition effect_ok (n : Z) (e : Effect) : Prop :=
  match e with
  | setNovelData (PatchChapter i _) => 0 <= i < n
  | setNovelData _ => False
  | setAppState _ => False
  | setIsLoading _ => False
  | _ => True
  end.

Fixpoint task_ok {A : Type} (n : Z) (t : task A) : Prop :=
  match t with
  | Ret _ => True
  | Throw _ => True
  | Act e k => effect_ok n e /\ task_ok n k
  | Await _ k => forall o, task_ok n (k o)
  end.

(** The reader's part of the invariant, for an outline of [n] chapters. *)
Definition reading_ok (n : Z) (s : App) : Prop :=
  appState s = READING /\
  numbered 0 (outline (novelData s)) /\
  Arr.length (outline (novelData s)) = n /\
  (n <> 0 -> cursor_valid (novelData s)).

(** The form's part of the invariant. *)
Definition setup_ok (s : App) : Prop :=
  appState s = SETUP /\
  outline (novelData s) = [] /\
  currentChapterIndex (novelData s) = 0.

(** What the rest of the outline step does once the provider has
    answered: it finishes, with the form idle again or with the reader
    on a numbered outline. *)
Definition start_ok (t : task unit) : Prop :=
  forall s, setup_ok s ->
    exists s',
      run t s = (s', Finished tt) /\
      ((setup_ok s' /\ isLoading s' = false) \/
       reading_ok (Arr.length (outline (novelData s'))) s').

Definition Inv (sys : Sys) : Prop :=
  match appState (app sys) with
  | SETUP =>
      setup_ok (app sys) /\
      ((isLoading (app sys) = false /\ pending sys = []) \/
       (isLoading (app sys) = true /\
        exists k, pending sys = [k] /\ forall o, start_ok (k o)))
  | READING =>
      let n := Arr.length (outline (novelData (app sys))) in
      reading_ok n (app sys) /\
      Forall (fun k => forall o, task_ok n (k o)) (pending sys)
  | GENERATING_OUTLINE => False
  end.

(** ** Concrete inputs used by the examples below *)

Module Fixture.

Definition key : option string := Some "k".

Definition quoted (s : string) : string := DQ ++ s ++ DQ.

(** [{"chapters":[]}] *)
Definition emptyOutlineText : string := "{" ++ quoted "chapters" ++ ":[]}".

(** [{"chapters":[{"title":"A","summary":"B"},{"title":"C","summary":"D"}]}] *)
Definition twoChaptersText : string :=
  "{" ++ quoted "chapters" ++ ":[{" ++ quoted "title" ++ ":" ++ quoted "A" ++ ","
  ++ quoted "summary" ++ ":" ++ quoted "B" ++ "},{" ++ quoted "title" ++ ":"
  ++ quoted "C" ++ "," ++ quoted "summary" ++ ":" ++ quoted "D" ++ "}]}".

(** [{"chapters":[{"title":"A","summary":"B"},{"title":"C","summary":"D"},
    {"title":"E","summary":"F"}]}] *)
Definition threeChaptersText : string :=
  "{" ++ quoted "chapters" ++ ":[{" ++ quoted "title" ++ ":" ++ quoted "A" ++ ","
  ++ quoted "summary" ++ ":" ++ quoted "B" ++ "},{" ++ quoted "title" ++ ":"
  ++ quoted "C" ++ "," ++ quoted "summary" ++ ":" ++ quoted "D" ++ "},{"
  ++ quoted "title" ++ ":" ++ quoted "E" ++ "," ++ quoted "summary" ++ ":"
  ++ quoted "F" ++ "}]}".

(** [JSON.parse] on the three texts above; every other text is taken to
    be malformed. *)
Definition parse (text : string) : option OutlineReply :=
  if (text =? emptyOutlineText)%string then Some (mkReply (Some []))
  else if (text =? twoChaptersText)%string
       then Some (mkReply (Some [Some (mkItem (Some "A") (Some "B"));
                                 Some (mkItem (Some "C") (Some "D"))]))
  else if (text =? threeChaptersText)%string
       then Some (mkReply (Some [Some (mkItem (Some "A") (Some "B"));
                                 Some (mkItem (Some "C") (Some "D"));
                                 Some (mkItem (Some "E") (Some "F"))]))
       else None.

Definition premise : NovelConfig :=
  Config.mk "T" (Genre_value FANTASY) (Tone_value SERIOUS) "P" "S" "Q" "R".

Definition chapterA : Chapter := mkChapter (Some 1) (Some "A") (Some "B") None None.
Definition chapterC : Chapter := mkChapter (Some 2) (Some "C") (Some "D") None None.

(** The session after the outline step accepted [twoChaptersText]. *)
Definition reading : App :=
  mkApp READING false None
    (mkNovelData (Some premise) [Obj chapterA; Obj chapterC] 0) [] [].

(** Submit the premise, let the provider answer [twoChaptersText],
    generate chapter 2, select it. *)
Definition events : list Event :=
  [Submit premise; Settle 0 (Resolved (Some twoChaptersText));
   Generate 1; Settle 0 (Resolved (Some "text")); Select 1].

Definition selected : Sys :=
  mkSys
    (mkApp READING false None
       (mkNovelData (Some premise)
          [Obj chapterA;
           Obj (mkChapter (Some 2) (Some "C") (Some "D") (Some "text") (Some false))]
          1) [] [])
    [].

(** Submit the premise, let the provider answer [threeChaptersText],
    then generate the third chapter and the first, leaving the second
    without content. *)
Definition writing : list Event :=
  [Submit premise; Settle 0 (Resolved (Some threeChaptersText));
   Generate 2; Settle 0 (Resolved (Some "three"));
   Generate 0; Settle 0 (Resolved (Some "one"))].

Definition written : Sys :=
  mkSys
    (mkApp READING false None
       (mkNovelData (Some premise)
          [Obj (mkChapter (Some 1) (Some "A") (Some "B") (Some "one") (Some false));
           Obj chapterC;
           Obj (mkChapter (Some 3) (Some "E") (Some "F") (Some "three") (Some false))]
          0) [] [])
    [].

End Fixture.

(** ** How the chapter handlers use the flag *)


(** [settles i b t]: the task [t] updates chapter [i] only, besides
    logging and alerting; it awaits the provider only while the flag it
    has written is set, and it ends only with the flag cleared.  [b] is
    the flag as the task has left it so far. *)
Fixpoint settles (i : Z) (b : bool) (t : task unit) : Prop :=
  match t with
  | Ret _ => b = false
  | Throw _ => b = false
  | Act e k =>
      match e with
      | setNovelData (PatchChapter j p) =>
          j = i /\
          settles i (match p_isGenerating p with Some v => v | None => b end) k
      | console_error => settles i b k
      | alert _ => settles i b k
      | _ => False
      end
  | Await _ k => b = true /\ forall o, settles i true (k o)
  end.

(** What a handler of chapter [i] leaves alone: every other chapter, the
    length of the outline, the premise, the cursor, the screen, the
    loading flag, the error and the downloads; and of chapter [i] itself
    the id and the title. *)
Definition frame (i : Z) (s s' : App) : Prop :=
  (forall j, j <> i -> chapterAt s' j = chapterAt s j) /\
  Arr.length (outline (novelData s')) = Arr.length (outline (novelData s)) /\
  config (novelData s') = config (novelData s) /\
  currentChapterIndex (novelData s') = currentChapterIndex (novelData s) /\
  appState s' = appState s /\
  isLoading s' = isLoading s /\
  error s' = error s /\
  downloads s' = downloads s /\
  forall c, chapterAt s i = Some c ->
    exists c', chapterAt s' i = Some c' /\ id c' = id c /\ title c' = title c.

(** What no event of the reader changes: the screen, the premise, the
    number of chapters, and the id and title of every chapter. *)
Definition frozen (s s' : App) : Prop :=
  appState s' = appState s /\
  config (novelData s') = config (novelData s) /\
  Arr.length (outline (novelData s')) = Arr.length (outline (novelData s)) /\
  forall i c, chapterAt s i = Some c ->
    exists c', chapterAt s' i = Some c' /\ id c' = id c /\ title c' = title c.

(** ** More concrete inputs *)

Module Fixture2.

(** Submit the premise, let the provider answer with two chapters, start
    generating chapter 2. *)
Definition generating_events : list Event :=
  [Submit Fixture.premise; Settle 0 (Resolved (Some Fixture.twoChaptersText));
   Generate 1].

Definition generating : Sys :=
  match fire_all Fixture.key Fixture.parse initialSys generating_events with
  | Some sys => sys
  | None => initialSys
  end.

(** The premise is submitted and the outline request is in flight. *)
Definition loading : Sys :=
  match fire_all Fixture.key Fixture.parse initialSys [Submit Fixture.premise] with
  | Some sys => sys
  | None => initialSys
  end.

(** A twist of chapter 1 is started on [Fixture.selected]. *)
Definition twisting : Sys :=
  match fire Fixture.key Fixture.parse Fixture.selected (Twist 0) with
  | Some sys => sys
  | None => initialSys
  end.

(** Without a key: submit, dismiss the error, submit again. *)
Definition keyless_events : list Event :=
  [Submit Fixture.premise; DismissError; Submit Fixture.premise].

Definition keyless : Sys :=
  match fire_all None Fixture.parse initialSys keyless_events with
  | Some sys => sys
  | None => initialSys
  end.

End Fixture2.

(** ** Requests in flight and flags *)

(** The flag of chapter [i] is set. *)
Definition flag_set (s : App) (i : Z) : Prop :=
  exists c, chapterAt s i = Some c /\ truthy_bool (isGenerating c) = true.


(** The rest of the outline step, resumed on the form with no error
    shown: it ends with the loading flag off, either on the form again or
    on the reader with no error and no flag set. *)
Definition start_ok2 (t : task unit) : Prop :=
  forall s, setup_ok s -> error s = None ->
    exists s',
      run t s = (s', Finished tt) /\
      isLoading s' = false /\
      (setup_ok s' \/
       (appState s' = READING /\ error s' = None /\ forall i, ~ flag_set s' i)).

(** On the reader: no error, not loading, and the requests in flight are
    those of the chapters whose flag is set, one each. *)
Definition reading2 (sys : Sys) : Prop :=
  error (app sys) = None /\
  isLoading (app sys) = false /\
  exists idxs,
    Forall2 (fun i k => forall o, settles i true (k o)) idxs (pending sys) /\
    NoDup idxs /\
    forall i, In i idxs <-> flag_set (app sys) i.

Definition Inv2 (sys : Sys) : Prop :=
  match appState (app sys) with
  | SETUP =>
      isLoading (app sys) = true ->
      error (app sys) = None /\
      forall k, In k (pending sys) -> forall o, start_ok2 (k o)
  | READING => reading2 sys
  | GENERATING_OUTLINE => True
  end.

(** ** What the screens offer (App.tsx, NovelReader.tsx) *)

(** What [NovelReader] renders: the chapter buttons of the side bar, by
    index; the two header buttons; the one of the three panels; and the
    target of the "next chapter" button of the content panel. *)
Record ReaderView : Type := mkReaderView {
  chapterButtons : list Z;
  audioButton : bool;
  twistButton : bool;
  stubPanel : bool;          (* offers generate and twist *)
  generatingPanel : bool;
  contentPanel : bool;
  nextChapter : option Z
}.

(** [data.outline.map((chapter, idx) => <button ... onClick=... idx>)],
    from index [k] on: the callback reads [chapter.id]. *)
Fixpoint sideBar (k : Z) (a : ChapterArray) : result (list Z) :=
  match a with
  | [] => Ok []
  | Hole :: rest => sideBar (k + 1) rest
  | Undef :: _ => Raise TypeError
  | Obj _ :: rest =>
      match sideBar (k + 1) rest with
      | Ok l => Ok (k :: l)
      | Raise e => Raise e
      end
  end.

(** The render of [NovelReader] with the props [data] and
    [isGenerating]; [Raise TypeError] when it reads a property of an
    [undefined] chapter. *)
Definition renderReader (data : NovelData) (isGeneratingProp : bool) : result ReaderView :=
  match sideBar 0 (outline data) with
  | Raise e => Raise e
  | Ok buttons =>
      match Arr.get (outline data) (currentChapterIndex data) with
      | None => Raise TypeError            (* currentChapter.id *)
      | Some currentChapter =>
          let hasContent := truthy_str (content currentChapter) in
          let generating := truthy_bool (isGenerating currentChapter) in
          let shown := hasContent && negb generating in
          Ok (mkReaderView buttons
                (hasContent && negb isGeneratingProp)
                (hasContent && negb isGeneratingProp)
                (negb hasContent && negb generating)
                generating
                shown
                (if shown && (currentChapterIndex data <? Arr.length (outline data) - 1)
                 then Some (currentChapterIndex data + 1) else None))
      end
  end.

(** [novelData.outline[novelData.currentChapterIndex]?.isGenerating || false] *)
Definition isGeneratingProp (data : NovelData) : bool :=
  match Arr.get (outline data) (currentChapterIndex data) with
  | Some c => truthy_bool (isGenerating c)
  | None => false
  end.

(** The events the reader's buttons lead to. *)
Definition offers (data : NovelData) (v : ReaderView) : list Event :=
  (map Select (chapterButtons v)
   ++ [Export]
   ++ (if twistButton v then [Twist (currentChapterIndex data)] else [])
   ++ (if stubPanel v
       then [Generate (currentChapterIndex data); Twist (currentChapterIndex data)]
       else [])
   ++ match nextChapter v with Some k => [Select k] | None => [] end)%list.

(** What [App] renders below the error toast. *)
Inductive Screen : Type :=
| FormScreen (isLoading : bool)
| ReaderScreen (v : ReaderView)
| NoScreen.

Definition renderApp (s : App) : result (bool * Screen) :=
  let toast := truthy_str (error s) in
  match appState s with
  | SETUP => Ok (toast, FormScreen (isLoading s))
  | READING =>
      match renderReader (novelData s) (isGeneratingProp (novelData s)) with
      | Ok v => Ok (toast, ReaderScreen v)
      | Raise e => Raise e
      end
  | GENERATING_OUTLINE => Ok (toast, NoScreen)
  end.

(** ** Asynchronous functions of the form and of the speech service

    The same resumptions as [task], over any request, response, effect
    and result type. *)

Inductive proc (Rq Rs E A : Type) : Type :=
| Return (a : A)
| Reject (e : Exn)
| Do (e : E) (k : proc Rq Rs E A)
| Ask (req : Rq) (k : Rs -> proc Rq Rs E A).
Arguments Return {Rq Rs E A} a.
Arguments Reject {Rq Rs E A} e.
Arguments Do {Rq Rs E A} e k.
Arguments Ask {Rq Rs E A} req k.

Fixpoint pbind {Rq Rs E A B : Type} (t : proc Rq Rs E A) (f : A -> proc Rq Rs E B)
  : proc Rq Rs E B :=
  match t with
  | Return a => f a
  | Reject e => Reject e
  | Do e k => Do e (pbind k f)
  | Ask req k => Ask req (fun o => pbind (k o) f)
  end.

Fixpoint pcatch {Rq Rs E A : Type} (t : proc Rq Rs E A) (h : Exn -> proc Rq Rs E A)
  : proc Rq Rs E A :=
  match t with
  | Return a => Return a
  | Reject e => h e
  | Do e k => Do e (pcatch k h)
  | Ask req k => Ask req (fun o => pcatch (k o) h)
  end.

Fixpoint pfinally {Rq Rs E A : Type} (t : proc Rq Rs E A) (f : proc Rq Rs E unit)
  : proc Rq Rs E A :=
  match t with
  | Return a => pbind f (fun _ => Return a)
  | Reject e => pbind f (fun _ => Reject e)
  | Do e k => Do e (pfinally k f)
  | Ask req k => Ask req (fun o => pfinally (k o) f)
  end.

Inductive pstatus (Rq Rs E A : Type) : Type :=
| Settled (a : A)
| Rejects (e : Exn)
| Waiting (req : Rq) (k : Rs -> proc Rq Rs E A).
Arguments Settled {Rq Rs E A} a.
Arguments Rejects {Rq Rs E A} e.
Arguments Waiting {Rq Rs E A} req k.

(** Run up to the next await, over a state [S] that the effects act on. *)
Fixpoint prun {Rq Rs E A S : Type} (act_on : E -> S -> S) (t : proc Rq Rs E A) (s : S)
  : S * pstatus Rq Rs E A :=
  match t with
  | Return a => (s, Settled a)
  | Reject e => (s, Rejects e)
  | Do e k => prun act_on k (act_on e s)
  | Ask req k => (s, Waiting req k)
  end.

(** Run to the end, answering the successive requests with [os]. *)
Fixpoint pexec {Rq Rs E A S : Type} (act_on : E -> S -> S) (t : proc Rq Rs E A)
    (os : list Rs) (s : S) : S * pstatus Rq Rs E A :=
  match t with
  | Return a => (s, Settled a)
  | Reject e => (s, Rejects e)
  | Do e k => pexec act_on k os (act_on e s)
  | Ask req k =>
      match os with
      | [] => (s, Waiting req k)
      | o :: rest => pexec act_on (k o) rest s
      end
  end.

(** ** services/geminiService.ts: random idea and speech *)

(** [Object.values(Genre)] and [Object.values(Tone)] *)
Definition Genre_values : list Genre :=
  [FANTASY; SCI_FI; MYSTERY; ROMANCE; HISTORICAL; DRAMA; HORROR; ADVENTURE].
Definition Tone_values : list Tone :=
  [SERIOUS; HUMOROUS; DARK; OPTIMISTIC; MYSTERIOUS].

(** The prompt of [generateRandomNovelIdea]. *)
Definition randomIdeaPrompt : string :=
  "
    اقترح فكرة رواية فريدة ومبتكرة باللغة العربية. كن مبدعاً جداً.
    
    القيود للاختيارات:
    - النوع الأدبي يجب أن يكون واحداً من القيم التالية حصراً: "
  ++ String.concat "، " (map Genre_value Genre_values)
  ++ ".
    - النغمة يجب أن تكون واحدة من القيم التالية حصراً: "
  ++ String.concat "، " (map Tone_value Tone_values)
  ++ ".
    
    المطلوب تعبئة البيانات التالية في ملف JSON:
    - title: عنوان جذاب وغير تقليدي.
    - genre: النوع الأدبي (من القائمة أعلاه).
    - tone: النغمة (من القائمة أعلاه).
    - protagonist: وصف مثير للاهتمام للشخصية الرئيسية.
    - setting: وصف المكان والزمان (إعداد مميز).
    - plotSummary: ملخص الحبكة (فقرة مشوقة تحتوي على صراع واضح).
    - targetAudience: الجمهور المستهدف.
  ".

(** The request of [generateRandomNovelIdea]: JSON reply with the seven
    members of [NovelConfig], all required strings. *)
Record IdeaRequest : Type := mkIdeaRequest {
  idea_model : string;
  idea_contents : string;
  idea_required : list string
}.

(** The request of [generateSpeech]. *)
Record SpeechRequest : Type := mkSpeechRequest {
  speech_model : string;
  speech_text : string;
  voiceName : string
}.

(** The response to a speech request, with the members the optional
    chain [candidates?.[0]?.content?.parts?.[0]?.inlineData?.data]
    reads. *)
Module Speech.
Record InlineData : Type := mkInlineData { data : option string }.
Record Part : Type := mkPart { inlineData : option InlineData }.
Record Content : Type := mkContent { parts : option (list Part) }.
Record Candidate : Type := mkCandidate { content : option Content }.
Record Response : Type := mkResponse { candidates : option (list Candidate) }.
End Speech.

Inductive SpeechOutcome : Type :=
| SpeechRejected (reason : string)
| SpeechResolved (response : Speech.Response).

(** [a?.[0]] *)
Definition first {A : Type} (a : option (list A)) : option A :=
  match a with
  | Some (x :: _) => Some x
  | _ => None
  end.

(** [x?.member] *)
Definition chain {A B : Type} (x : option A) (member : A -> option B) : option B :=
  match x with
  | Some a => member a
  | None => None
  end.

Section Services2.

Variable apiKey : option string.

(** [JSON.parse] on the text of an idea reply, at the type its response
    schema gives it; [None] when it raises a [SyntaxError]. *)
Variable JSON_parse_idea : string -> option NovelConfig.

Definition ERR_IDEA : string := "فشل في توليد فكرة عشوائية".
Definition ERR_AUDIO : string := "لم يتم إنشاء ملف صوتي".

Definition generateRandomNovelIdea {E : Type} (console_error : E)
  : proc IdeaRequest Outcome E NovelConfig :=
  if negb (truthy_str apiKey) then Reject (Error "API Key is missing")
  else
    Ask (mkIdeaRequest MODEL_FAST randomIdeaPrompt
           ["title"; "genre"; "tone"; "protagonist"; "setting"; "plotSummary";
            "targetAudience"])
      (fun response =>
         match response with
         | Rejected reason => Reject (Rejection reason)
         | Resolved jsonText =>
             match jsonText with
             | Some (String a b) =>
                 pcatch
                   (match JSON_parse_idea (String a b) with
                    | None => Reject SyntaxError
                    | Some parsed =>
                        Return (Config.mk (Config.title parsed) (Config.genre parsed)
                                  (Config.tone parsed) (Config.protagonist parsed)
                                  (Config.setting parsed) (Config.plotSummary parsed)
                                  (Config.targetAudience parsed))
                    end)
                   (fun e => Do console_error (Reject (Error ERR_IDEA)))
             | _ => Reject (Error "No content generated")
             end
         end).

(** [`اقرأ ...:\n\n${text}`] *)
Definition speechPrompt (text : string) : string :=
  "اقرأ النص التالي باللغة العربية قراءة معبرة:" ++ LF ++ LF ++ text.

Definition generateSpeech {E : Type} (text : string)
  : proc SpeechRequest SpeechOutcome E string :=
  if negb (truthy_str apiKey) then Reject (Error "API Key is missing")
  else
    Ask (mkSpeechRequest MODEL_TTS (speechPrompt text) "Zephyr")
      (fun outcome =>
         match outcome with
         | SpeechRejected reason => Reject (Rejection reason)
         | SpeechResolved response =>
             let base64Audio :=
               chain (chain (first (chain (chain (first (Speech.candidates response))
                                             Speech.content)
                                      Speech.parts))
                        Speech.inlineData)
                 Speech.data in
             match base64Audio with
             | Some (String a b) => Return (String a b)
             | _ => Reject (Error ERR_AUDIO)
             end
         end).

(** ** components/SetupForm.tsx *)

Inductive Field : Type :=
| f_title | f_genre | f_tone | f_protagonist | f_setting | f_plotSummary
| f_targetAudience.

(** [{ ...prev, [field]: value }] *)
Definition set_field (field : Field) (value : string) (prev : NovelConfig) : NovelConfig :=
  match field with
  | f_title =>
      Config.mk value (Config.genre prev) (Config.tone prev) (Config.protagonist prev)
        (Config.setting prev) (Config.plotSummary prev) (Config.targetAudience prev)
  | f_genre =>
      Config.mk (Config.title prev) value (Config.tone prev) (Config.protagonist prev)
        (Config.setting prev) (Config.plotSummary prev) (Config.targetAudience prev)
  | f_tone =>
      Config.mk (Config.title prev) (Config.genre prev) value (Config.protagonist prev)
        (Config.setting prev) (Config.plotSummary prev) (Config.targetAudience prev)
  | f_protagonist =>
      Config.mk (Config.title prev) (Config.genre prev) (Config.tone prev) value
        (Config.setting prev) (Config.plotSummary prev) (Config.targetAudience prev)
  | f_setting =>
      Config.mk (Config.title prev) (Config.genre prev) (Config.tone prev)
        (Config.protagonist prev) value (Config.plotSummary prev)
        (Config.targetAudience prev)
  | f_plotSummary =>
      Config.mk (Config.title prev) (Config.genre prev) (Config.tone prev)
        (Config.protagonist prev) (Config.setting prev) value
        (Config.targetAudience prev)
  | f_targetAudience =>
      Config.mk (Config.title prev) (Config.genre prev) (Config.tone prev)
        (Config.protagonist prev) (Config.setting prev) (Config.plotSummary prev) value
  end.

(** The state of [SetupForm], with the premises passed to [onStart] so
    far (latest first). *)
Record FormState : Type := mkForm {
  formConfig : NovelConfig;
  isRandomizing : bool;
  started : list NovelConfig
}.

Definition initialForm : FormState :=
  mkForm (Config.mk "" (Genre_value FANTASY) (Tone_value SERIOUS) "" "" "" "الشباب والكبار")
    false [].

Inductive FormEffect : Type :=
| setConfig (c : NovelConfig)                     (* setConfig(randomConfig) *)
| editConfig (field : Field) (value : string)     (* setConfig(prev => ...) *)
| setIsRandomizing (b : bool)
| form_console_error
| onStart (c : NovelConfig).

Definition performForm (e : FormEffect) (f : FormState) : FormState :=
  match e with
  | setConfig c => mkForm c (isRandomizing f) (started f)
  | editConfig field value =>
      mkForm (set_field field value (formConfig f)) (isRandomizing f) (started f)
  | setIsRandomizing b => mkForm (formConfig f) b (started f)
  | form_console_error => f
  | onStart c => mkForm (formConfig f) (isRandomizing f) (c :: started f)
  end.

Definition FormProc : Type := proc IdeaRequest Outcome FormEffect unit.

(** [handleSubmit], closed over the [config] of the render. *)
Definition handleSubmit (config : NovelConfig) : FormProc :=
  Do (onStart config) (Return tt).

Definition handleChange (field : Field) (value : string) : FormProc :=
  Do (editConfig field value) (Return tt).

Definition handleRandomize : FormProc :=
  Do (setIsRandomizing true)
    (pfinally
       (pcatch
          (pbind (generateRandomNovelIdea form_console_error)
             (fun randomConfig => Do (setConfig randomConfig) (Return tt)))
          (fun error => Do form_console_error (Return tt)))
       (Do (setIsRandomizing false) (Return tt))).

(** The premise a random-idea reply leads to, when there is one. *)
Definition acceptedIdea (o : Outcome) : option NovelConfig :=
  if truthy_str apiKey then
    match o with
    | Resolved (Some (String a b)) => JSON_parse_idea (String a b)
    | _ => None
    end
  else None.

(** The edits of the user, one [handleChange] each. *)
Definition applyEdits (edits : list (Field * string)) (f : FormState) : FormState :=
  fold_left (fun f e => fst (prun performForm (handleChange (fst e) (snd e)) f)) edits f.

End Services2.

(** * Properties *)

(** ** Arrays *)

Module ArrFacts.

Lemma replace_length a n c : List.length (Arr.replace a n c) = List.length a.
Proof.
  revert n; induction a as [|s r IH]; intros [|n]; simpl; auto.
Qed.

Lemma nth_replace_eq a n c :
  (n < List.length a)%nat -> nth_error (Arr.replace a n c) n = Some (Obj c).
Proof.
  revert n; induction a as [|s r IH]; intros [|n] H; simpl in *; try lia; auto.
  apply IH; lia.
Qed.

Lemma nth_replace_neq a n m c :
  n <> m -> nth_error (Arr.replace a n c) m = nth_error a m.
Proof.
  revert n m; induction a as [|s r IH]; intros [|n] [|m] H; simpl; auto;
    try congruence.
Qed.

Lemma spread_length a : List.length (Arr.spread a) = List.length a.
Proof. apply length_map. Qed.

Lemma get_spread a i : Arr.get (Arr.spread a) i = Arr.get a i.
Proof.
  unfold Arr.get, Arr.spread. destruct (i <? 0); auto.
  rewrite nth_error_map. destruct (nth_error a (Z.to_nat i)) as [[| |c]|]; auto.
Qed.

Lemma get_in_range a i c : Arr.get a i = Some c -> 0 <= i < Arr.length a.
Proof.
  unfold Arr.get, Arr.length. destruct (Z.ltb_spec i 0); [discriminate|].
  destruct (nth_error a (Z.to_nat i)) eqn:E; [|discriminate].
  intros _. assert (Z.to_nat i < List.length a)%nat by (apply nth_error_Some; congruence).
  lia.
Qed.

Lemma get_out_of_range a i : i < 0 \/ Arr.length a <= i -> Arr.get a i = None.
Proof.
  unfold Arr.get, Arr.length. intros H. destruct (Z.ltb_spec i 0); auto.
  assert (E : nth_error a (Z.to_nat i) = None) by (apply nth_error_None; lia).
  now rewrite E.
Qed.

Lemma set_length a i c : 0 <= i < Arr.length a -> Arr.length (Arr.set a i c) = Arr.length a.
Proof.
  intros H. unfold Arr.set.
  destruct (Z.ltb_spec i 0); [lia|]. destruct (Z.ltb_spec i (Arr.length a)); [|lia].
  unfold Arr.length. now rewrite replace_length.
Qed.

Lemma get_set_eq a i c : 0 <= i < Arr.length a -> Arr.get (Arr.set a i c) i = Some c.
Proof.
  intros H. unfold Arr.set, Arr.get.
  destruct (Z.ltb_spec i 0); [lia|]. destruct (Z.ltb_spec i (Arr.length a)); [|lia].
  rewrite nth_replace_eq; auto. unfold Arr.length in *. lia.
Qed.

Lemma get_set_neq a i j c :
  0 <= i < Arr.length a -> j <> i -> Arr.get (Arr.set a i c) j = Arr.get a j.
Proof.
  intros H Hj. unfold Arr.set, Arr.get.
  destruct (Z.ltb_spec i 0); [lia|]. destruct (Z.ltb_spec i (Arr.length a)); [|lia].
  destruct (Z.ltb_spec j 0); auto.
  rewrite nth_replace_neq; auto. lia.
Qed.

End ArrFacts.

(** ** Strings *)

Module StringFacts.

Lemma append_assoc (a b c : string) : (a ++ b) ++ c = a ++ (b ++ c).
Proof. induction a as [|x a IH]; simpl; [reflexivity | now rewrite IH]. Qed.

Lemma append_length (a b : string) :
  String.length (a ++ b) = (String.length a + String.length b)%nat.
Proof. induction a as [|x a IH]; simpl; [reflexivity | now rewrite IH]. Qed.

Lemma append_cancel (pre a b : string) : pre ++ a = pre ++ b -> a = b.
Proof.
  induction pre as [|x pre IH]; simpl; intros H; [exact H|].
  injection H as H. exact (IH H).
Qed.

(** A string is not itself with a character in front of it. *)
Lemma append_grows (x : ascii) (a post : string) : String x a ++ post <> post.
Proof.
  intros H. apply (f_equal String.length) in H.
  rewrite append_length in H. simpl in H. lia.
Qed.

End StringFacts.

(** ** One chapter update *)

Section PatchFacts.

Variables (s : App) (i : Z) (p : Patch) (c : Chapter).
Hypothesis at_i : chapterAt s i = Some c.

Let s' := perform (setNovelData (PatchChapter i p)) s.

Lemma patched_chapter : chapterAt s' i = Some (apply_patch p (Some c)).
Proof.
  unfold s', chapterAt in *; simpl.
  rewrite ArrFacts.get_spread, at_i.
  apply ArrFacts.get_set_eq.
  apply ArrFacts.get_in_range in at_i.
  unfold Arr.length in *. now rewrite ArrFacts.spread_length.
Qed.

Lemma patched_elsewhere j : j <> i -> chapterAt s' j = chapterAt s j.
Proof.
  intros Hj. unfold s', chapterAt in *; simpl.
  rewrite ArrFacts.get_set_neq; auto using ArrFacts.get_spread.
  apply ArrFacts.get_in_range in at_i.
  unfold Arr.length in *. now rewrite ArrFacts.spread_length.
Qed.

End PatchFacts.

(** ** The outline step *)

Section OutlineStep.

Variable apiKey : option string.
Variable JSON_parse : string -> option OutlineReply.

Lemma chaptersFrom_nth items : forall k n,
  nth_error (chaptersFrom k items) n =
  option_map
    (fun item => Obj (mkChapter (Some (k + Z.of_nat n + 1)) (item_title item)
                        (item_summary item) None None))
    (nth_error items n).
Proof.
  induction items as [|c r IH]; intros k [|n]; simpl; auto.
  - now rewrite Z.add_0_r.
  - rewrite IH.
    assert (E : k + 1 + Z.of_nat n + 1 = k + Z.of_nat (S n) + 1) by lia.
    now rewrite E.
Qed.

Lemma chaptersFrom_length items : forall k,
  List.length (chaptersFrom k items) = List.length items.
Proof. induction items; intros k; simpl; auto. Qed.

(** The outline step, outcome by outcome.  For every premise, session
    state and provider outcome it settles with the loading flag cleared,
    in one of two ways.  When the reply is taken (key set, text not
    empty, text parses, the parsed object has a [chapters] array without
    a [null] element) the session is in [READING] with no error, the
    premise stored, the cursor at 0 and one chapter per item, the n-th
    (from 0) with id [n + 1], the item's title and summary as the reply
    has them, and no content or generating flag.  In every other case
    (no key, rejected request, absent or empty text, malformed JSON, no
    [chapters] array, a [null] element) the screen, premise, chapters
    and cursor are as before and the error message is set. *)
Lemma handleStart_settles (premise : NovelConfig) (s : App) (o : Outcome) :
  let r := exec (handleStart apiKey JSON_parse premise) [o] s in
  snd r = Finished tt /\
  isLoading (fst r) = false /\
  match acceptedOutline apiKey JSON_parse o with
  | Some items =>
      appState (fst r) = READING /\
      error (fst r) = None /\
      config (novelData (fst r)) = Some premise /\
      currentChapterIndex (novelData (fst r)) = 0 /\
      Arr.length (outline (novelData (fst r))) = Z.of_nat (List.length items) /\
      forall n item,
        nth_error items n = Some item ->
        chapterAt (fst r) (Z.of_nat n) =
        Some (mkChapter (Some (Z.of_nat n + 1)) (item_title item)
                (item_summary item) None None)
  | None =>
      appState (fst r) = appState s /\
      novelData (fst r) = novelData s /\
      error (fst r) = Some MSG_OUTLINE_FAILED
  end.
Proof.
  unfold acceptedOutline, handleStart, generateNovelOutline.
  destruct apiKey as [[|k0 k]|]; simpl; auto.
  destruct o as [reason|[[|a b]|]]; simpl; auto.
  destruct (JSON_parse (String a b)) as [[[elements|]]|]; simpl; auto.
  destruct (objectItems elements) as [items|e]; simpl; auto.
  repeat split; auto.
  - unfold Arr.length. now rewrite chaptersFrom_length.
  - intros n item Hn. unfold chapterAt, Arr.get; simpl.
    destruct (Z.ltb_spec (Z.of_nat n) 0); [lia|].
    rewrite Nat2Z.id, chaptersFrom_nth, Hn. reflexivity.
Qed.

End OutlineStep.

(** C1.  The outline step on a reply with zero chapters.  The text
    [{"chapters":[]}] is not empty and parses to an object whose
    [chapters] array has no element; [generateNovelOutline] maps over
    the array without looking at its length, so the step takes the empty
    outline: it finishes in [READING] with the premise stored, no
    chapters, the loading flag cleared and no error, where the claim
    requires [SETUP] with an error.  The reader, which reads
    [currentChapter.id] for the chapter under the cursor, cannot render
    that session: [App]'s render raises a [TypeError].  A reply whose
    text is empty, by contrast, is refused as the claim requires: the
    session stays in [SETUP], with no chapters and the error set. *)
Theorem handleStart_accepts_zero_chapters :
  let r := exec (handleStart Fixture.key Fixture.parse Fixture.premise)
             [Resolved (Some Fixture.emptyOutlineText)] initialApp in
  let r0 := exec (handleStart Fixture.key Fixture.parse Fixture.premise)
              [Resolved (Some EmptyString)] initialApp in
  Fixture.parse Fixture.emptyOutlineText = Some (mkReply (Some [])) /\
  (snd r = Finished tt /\
   appState (fst r) = READING /\
   isLoading (fst r) = false /\
   error (fst r) = None /\
   config (novelData (fst r)) = Some Fixture.premise /\
   outline (novelData (fst r)) = [] /\
   ~ (appState (fst r) = SETUP /\ error (fst r) <> None) /\
   renderApp (fst r) = Raise TypeError) /\
  (snd r0 = Finished tt /\
   appState (fst r0) = SETUP /\
   outline (novelData (fst r0)) = [] /\
   error (fst r0) = Some MSG_OUTLINE_FAILED).
Proof.
  vm_compute. repeat split; auto. intros [H _]; discriminate.
Qed.

(** ** Chapter generation and twist *)

Section ChapterHandlers.

Variable apiKey : option string.

Lemma chapterAt_alert s m i : chapterAt (perform (alert m) s) i = chapterAt s i.
Proof. reflexivity. Qed.

(** C3.  Generate-chapter on a chapter that has content or is
    generating, and twist on a chapter that is generating, run to the
    end at once: the handler finishes without awaiting the provider (no
    request is issued) and the session state it ends in is the state it
    started from, whole. *)
Theorem guarded_handlers_are_noops (s : App) (i : Z) (c : Chapter) :
  chapterAt s i = Some c ->
  (truthy_str (content c) = true \/ truthy_bool (isGenerating c) = true ->
   run (handleGenerateChapter apiKey (novelData s) i) s = (s, Finished tt)) /\
  (truthy_bool (isGenerating c) = true ->
   run (handleTwist apiKey (novelData s) i) s = (s, Finished tt)).
Proof.
  unfold chapterAt, handleGenerateChapter, handleTwist.
  intros ->. split.
  - intros H.
    assert (E : truthy_str (content c) || truthy_bool (isGenerating c) = true)
      by (apply orb_true_iff; exact H).
    now rewrite E.
  - now intros ->.
Qed.

(** C10.  For an index outside [0, length) the guard of generate-chapter
    and of twist reads a property of [undefined]: the handler ends with
    a [TypeError] (a rejected promise), not as a no-op and not through
    its own error path; the session state is untouched, so no flag is
    set and no alert is shown. *)
Theorem out_of_range_index_throws (s : App) (i : Z) :
  i < 0 \/ Arr.length (outline (novelData s)) <= i ->
  run (handleGenerateChapter apiKey (novelData s) i) s = (s, Failed TypeError) /\
  run (handleTwist apiKey (novelData s) i) s = (s, Failed TypeError).
Proof.
  intros H. apply ArrFacts.get_out_of_range in H.
  unfold handleGenerateChapter, handleTwist.
  now rewrite H.
Qed.

(** C6.  When the key is set and the provider resolves with an absent
    or empty text, [generateChapterContent] resolves to the fixed
    string [NO_TEXT] (which is not empty) and [generatePlotTwist]
    resolves to the summary of the chapter it was given; neither
    rejects, and neither touches the session. *)
Theorem empty_text_falls_back (cfg0 : ConfigObj) (chapter : Chapter)
    (ctx : string) (text : option string) (s : App) :
  truthy_str apiKey = true ->
  truthy_str text = false ->
  exec (generateChapterContent apiKey cfg0 chapter ctx) [Resolved text] s
    = (s, Finished NO_TEXT) /\
  NO_TEXT <> "" /\
  exec (generatePlotTwist apiKey cfg0 chapter ctx) [Resolved text] s
    = (s, Finished (summary chapter)).
Proof.
  intros Hk Ht.
  unfold generateChapterContent, generatePlotTwist, or_str_opt.
  rewrite Hk; simpl.
  destruct text as [[|a b]|]; simpl in *; try discriminate;
    repeat split; discriminate.
Qed.

End ChapterHandlers.

Lemma guarded_handlers_are_noops_witness :
  let s := perform (setNovelData (PatchChapter 1 (patch_content "text"))) Fixture.reading in
  let g := perform (markGenerating 1) Fixture.reading in
  run (handleGenerateChapter Fixture.key (novelData s) 1) s = (s, Finished tt) /\
  run (handleTwist Fixture.key (novelData g) 1) g = (g, Finished tt).
Proof.
  split.
  - apply (guarded_handlers_are_noops Fixture.key
             (perform (setNovelData (PatchChapter 1 (patch_content "text"))) Fixture.reading)
             1 (mkChapter (Some 2) (Some "C") (Some "D") (Some "text") (Some false))).
    + reflexivity.
    + left; reflexivity.
  - apply (guarded_handlers_are_noops Fixture.key
             (perform (markGenerating 1) Fixture.reading)
             1 (mkChapter (Some 2) (Some "C") (Some "D") None (Some true))).
    + reflexivity.
    + reflexivity.
Defined.

Lemma out_of_range_index_throws_witness :
  run (handleGenerateChapter Fixture.key (novelData Fixture.reading) 2) Fixture.reading
    = (Fixture.reading, Failed TypeError) /\
  run (handleTwist Fixture.key (novelData Fixture.reading) (-1)) Fixture.reading
    = (Fixture.reading, Failed TypeError).
Proof.
  split.
  - apply (out_of_range_index_throws Fixture.key Fixture.reading 2).
    right; vm_compute; discriminate.
  - apply (out_of_range_index_throws Fixture.key Fixture.reading (-1)).
    left; lia.
Defined.

Lemma empty_text_falls_back_witness :
  exec (generateChapterContent Fixture.key (Some Fixture.premise) Fixture.chapterC "")
    [Resolved (Some "")] Fixture.reading = (Fixture.reading, Finished NO_TEXT) /\
  exec (generatePlotTwist Fixture.key (Some Fixture.premise) Fixture.chapterC "")
    [Resolved None] Fixture.reading = (Fixture.reading, Finished (Some "D")).
Proof.
  split.
  - apply (empty_text_falls_back Fixture.key (Some Fixture.premise) Fixture.chapterC ""
             (Some "") Fixture.reading); reflexivity.
  - apply (empty_text_falls_back Fixture.key (Some Fixture.premise) Fixture.chapterC ""
             None Fixture.reading); reflexivity.
Defined.

Section GenerateChapter.

Variable apiKey : option string.

Lemma patched_twice s i p1 p2 c :
  chapterAt s i = Some c ->
  chapterAt (perform (setNovelData (PatchChapter i p2))
               (perform (setNovelData (PatchChapter i p1)) s)) i
  = Some (apply_patch p2 (Some (apply_patch p1 (Some c)))).
Proof.
  intros H. apply patched_chapter. now apply patched_chapter.
Qed.

(** C2.  Let chapter [i] exist, have no content and not be generating.
    The first thing generate-chapter does, before any request, is to
    set the chapter's flag; whenever the handler is waiting for the
    provider the session is exactly that marked state, and it does wait
    when the key is set and the context can be built.  Once the
    provider's outcome is in, the handler finishes with the flag false
    and exactly one of: content set (non-empty) and no alert; or
    content as before (absent) and the failure alert shown.  Which of
    the two is decided by the outcome: a rejected request is the
    failure; a response is the success, and the content stored is the
    response's text, or the fixed fallback text when that is empty or
    absent; and when no request could be made (no key, or the context
    could not be built) it is the failure. *)
Theorem generate_chapter_settles (s : App) (i : Z) (c : Chapter) (o : Outcome) :
  chapterAt s i = Some c ->
  truthy_str (content c) = false ->
  truthy_bool (isGenerating c) = false ->
  let t := handleGenerateChapter apiKey (novelData s) i in
  let marked := perform (markGenerating i) s in
  (exists rest, t = Act (markGenerating i) rest) /\
  option_map isGenerating (chapterAt marked i) = Some (Some true) /\
  (forall s1 req k, run t s = (s1, Blocked req k) -> s1 = marked) /\
  (truthy_str apiKey = true ->
   forall ctx, contextSummary (outline (novelData s)) i = Ok ctx ->
   exists k,
     run t s = (marked,
                Blocked (mkRequest MODEL_COMPLEX
                           (contentPrompt (config (novelData s)) c ctx)
                           (ContentConfig 1024)) k)) /\
  let r := exec t [o] s in
  snd r = Finished tt /\
  exists c',
    chapterAt (fst r) i = Some c' /\
    isGenerating c' = Some false /\
    let success := truthy_str (content c') = true /\ alerts (fst r) = alerts s in
    let failure := content c' = content c /\
                   alerts (fst r) = MSG_CHAPTER_FAILED :: alerts s in
    ((success /\ ~ failure) \/ (failure /\ ~ success)) /\
    let requested := truthy_str apiKey = true /\
                     exists ctx, contextSummary (outline (novelData s)) i = Ok ctx in
    match o with
    | Resolved text =>
        (requested -> success /\ content c' = Some (or_str text NO_TEXT)) /\
        (~ requested -> failure)
    | Rejected _ => failure
    end.
Proof.
  intros Hc Hcont Hgen t marked. subst t marked.
  pose proof Hc as Hc'. unfold chapterAt in Hc'.
  unfold handleGenerateChapter. rewrite Hc', Hcont, Hgen.
  cbn [orb bind act try_catch].
  split; [eexists; reflexivity|].
  split; [unfold markGenerating; rewrite (patched_chapter _ _ _ _ Hc); reflexivity|].
  unfold generateChapterContent.
  destruct (contextSummary (outline (novelData s)) i) as [ctx|e];
    destruct (truthy_str apiKey) eqn:Hk;
    cbn [lift bind try_catch negb run exec act fst snd].
  all: split; [intros s1 req k E; inversion E; reflexivity|].
  all: split; [first [ discriminate
                     | intros _ ctx' E; inversion E; subst; eexists; reflexivity
                     | intros _ ctx' E; discriminate ]|].
  all: try destruct o as [reason|text];
    cbn [lift bind try_catch negb run exec act fst snd].
  all: split; [reflexivity|].
  all: unfold markGenerating; eexists;
    (split; [first [ rewrite chapterAt_alert; cbn [perform]; apply patched_twice; exact Hc
                   | apply patched_twice; exact Hc ]|]).
  all: split; [reflexivity|].
  all: cbn [apply_patch patch_content patch_generating p_summary p_content p_isGenerating
              content isGenerating alerts perform].
  all: try (split;
            [right; split; [split; reflexivity|];
             intros [E _]; rewrite Hcont in E; discriminate|];
            first [ split; reflexivity
                  | split; [intros [Hk' [ctx' Hctx']]; discriminate
                           |intros _; split; reflexivity] ]).
  assert (T : truthy_str (Some (or_str text NO_TEXT)) = true)
    by (destruct text as [[|a b]|]; reflexivity).
  split.
  - left. split; [split; [exact T | reflexivity]|].
    intros [E _]. rewrite E, Hcont in T. discriminate.
  - split.
    + intros _. split; [split; [exact T | reflexivity] | reflexivity].
    + intros Hn. exfalso. apply Hn. split; [reflexivity | eexists; reflexivity].
Qed.

(** The same settlement when other handlers have run while the request
    was in flight: resumed in any state that still has a chapter at [i],
    the handler touches that chapter only, clearing its flag and, on
    success, storing the content. *)
Lemma generate_chapter_resumes_in_any_state (s : App) (i : Z) (c : Chapter) (ctx : string) :
  chapterAt s i = Some c ->
  truthy_str (content c) = false ->
  truthy_bool (isGenerating c) = false ->
  truthy_str apiKey = true ->
  contextSummary (outline (novelData s)) i = Ok ctx ->
  exists req k,
    run (handleGenerateChapter apiKey (novelData s) i) s
    = (perform (markGenerating i) s, Blocked req k) /\
    forall o s2 c2,
      chapterAt s2 i = Some c2 ->
      let r := run (k o) s2 in
      snd r = Finished tt /\
      (forall j, j <> i -> chapterAt (fst r) j = chapterAt s2 j) /\
      exists c',
        chapterAt (fst r) i = Some c' /\
        isGenerating c' = Some false /\
        summary c' = summary c2 /\
        match o with
        | Resolved text =>
            content c' = Some (or_str text NO_TEXT) /\ alerts (fst r) = alerts s2
        | Rejected _ =>
            content c' = content c2 /\ alerts (fst r) = MSG_CHAPTER_FAILED :: alerts s2
        end.
Proof.
  intros Hc Hcont Hgen Hk Hctx.
  pose proof Hc as Hc'. unfold chapterAt in Hc'.
  unfold handleGenerateChapter, generateChapterContent.
  rewrite Hc', Hcont, Hgen, Hctx, Hk.
  cbn [orb lift bind try_catch negb run act].
  do 2 eexists. split; [reflexivity|].
  intros o s2 c2 H2.
  destruct o as [reason|text]; cbn [lift bind try_catch negb run act fst snd].
  - split; [reflexivity|]. split.
    + intros j Hj. rewrite chapterAt_alert.
      exact (patched_elsewhere _ _ _ _ H2 j Hj).
    + eexists. split; [rewrite chapterAt_alert; apply patched_chapter; exact H2|].
      repeat split; reflexivity.
  - split; [reflexivity|]. split.
    + intros j Hj. exact (patched_elsewhere _ _ _ _ H2 j Hj).
    + eexists. split; [apply patched_chapter; exact H2|].
      repeat split; reflexivity.
Qed.

End GenerateChapter.

Section Twist.

Variable apiKey : option string.

(** C4.  Let chapter [i] exist and not be generating.  Whatever the
    provider answers to the rewrite request and to the content request,
    twist finishes with the chapter's flag false and with a summary that
    is either the one it had or a non-empty string. *)
Theorem twist_settles (s : App) (i : Z) (c : Chapter) (o1 o2 : Outcome) :
  chapterAt s i = Some c ->
  truthy_bool (isGenerating c) = false ->
  let r := exec (handleTwist apiKey (novelData s) i) [o1; o2] s in
  snd r = Finished tt /\
  exists c',
    chapterAt (fst r) i = Some c' /\
    isGenerating c' = Some false /\
    (summary c' = summary c \/ exists text, summary c' = Some text /\ text <> "").
Proof.
  intros Hc Hgen r. subst r.
  pose proof Hc as Hc'. unfold chapterAt in Hc'.
  unfold handleTwist. rewrite Hc', Hgen.
  unfold generatePlotTwist, generateChapterContent.
  destruct (contextSummary (outline (novelData s)) i) as [ctx|e];
    destruct (truthy_str apiKey) eqn:Hk;
    cbn [lift bind try_catch negb run exec act fst snd];
    try destruct o1 as [reason|text];
    cbn [lift bind try_catch negb run exec act fst snd];
    try destruct o2 as [reason2|text2];
    cbn [lift bind try_catch negb run exec act fst snd].
  all: split; [reflexivity|].
  all: unfold markGenerating; eexists;
    (split; [repeat first [rewrite chapterAt_alert | apply patched_chapter]; exact Hc|]).
  all: split; [reflexivity|].
  all: cbn [apply_patch patch_twisted patch_summary patch_generating
              p_summary p_content p_isGenerating summary].
  all: try (left; reflexivity).
  all: unfold or_str_opt; destruct text as [[|a b]|]; cbn [truthy_str];
    try (left; reflexivity); right; eexists; split; [reflexivity|discriminate].
Qed.

(** C5.  Let chapter [i] exist and not be generating.  (a) When the
    rewrite request is rejected, twist finishes with the failure alert
    shown, the chapter's summary and content as before, and the flag
    false.  (b) When the rewrite succeeds and only the content request
    is rejected, twist finishes with the failure alert shown, the flag
    false, the content as before, and the summary that the rewrite
    produced (the reply's text, or the old summary if the text was
    empty). *)
Theorem twist_failure_keeps_landed_summary (s : App) (i : Z) (c : Chapter) :
  chapterAt s i = Some c ->
  truthy_bool (isGenerating c) = false ->
  (forall reason o2,
     let r := exec (handleTwist apiKey (novelData s) i) [Rejected reason; o2] s in
     snd r = Finished tt /\
     alerts (fst r) = MSG_TWIST_FAILED :: alerts s /\
     exists c',
       chapterAt (fst r) i = Some c' /\
       summary c' = summary c /\
       content c' = content c /\
       isGenerating c' = Some false) /\
  (truthy_str apiKey = true ->
   forall ctx, contextSummary (outline (novelData s)) i = Ok ctx ->
   forall text reason,
     let r := exec (handleTwist apiKey (novelData s) i)
                [Resolved text; Rejected reason] s in
     snd r = Finished tt /\
     alerts (fst r) = MSG_TWIST_FAILED :: alerts s /\
     exists c',
       chapterAt (fst r) i = Some c' /\
       summary c' = or_str_opt text (summary c) /\
       content c' = content c /\
       isGenerating c' = Some false).
Proof.
  intros Hc Hgen.
  pose proof Hc as Hc'. unfold chapterAt in Hc'.
  unfold handleTwist. rewrite Hc', Hgen.
  unfold generatePlotTwist, generateChapterContent.
  split.
  - intros reason o2.
    destruct (contextSummary (outline (novelData s)) i) as [ctx|e];
      destruct (truthy_str apiKey) eqn:Hk;
      cbn [lift bind try_catch negb run exec act fst snd].
    all: split; [reflexivity|]. all: split; [reflexivity|].
    all: unfold markGenerating; eexists;
      (split; [repeat first [rewrite chapterAt_alert | apply patched_chapter]; exact Hc|]).
    all: repeat split; reflexivity.
  - intros Hk ctx Hctx text reason. rewrite Hk, Hctx.
    cbn [lift bind try_catch negb run exec act fst snd].
    split; [reflexivity|]. split; [reflexivity|].
    unfold markGenerating; eexists;
      (split; [repeat first [rewrite chapterAt_alert | apply patched_chapter]; exact Hc|]).
    repeat split; reflexivity.
Qed.

End Twist.

Lemma generate_chapter_settles_witness :
  let ok := exec (handleGenerateChapter Fixture.key (novelData Fixture.reading) 1)
              [Resolved (Some "text")] Fixture.reading in
  let ko := exec (handleGenerateChapter Fixture.key (novelData Fixture.reading) 1)
              [Rejected "offline"] Fixture.reading in
  (snd ok = Finished tt /\
   exists c', chapterAt (fst ok) 1 = Some c' /\
              isGenerating c' = Some false /\
              content c' = Some "text" /\
              alerts (fst ok) = []) /\
  (snd ko = Finished tt /\
   exists c', chapterAt (fst ko) 1 = Some c' /\
              isGenerating c' = Some false /\
              content c' = None /\
              alerts (fst ko) = [MSG_CHAPTER_FAILED]).
Proof.
  split.
  - destruct (generate_chapter_settles Fixture.key Fixture.reading 1 Fixture.chapterC
                (Resolved (Some "text")) eq_refl eq_refl eq_refl)
      as (_ & _ & _ & _ & Hfin & c' & Hc' & Hg & _ & Hreq & _).
    split; [exact Hfin|]. exists c'.
    destruct Hreq as [[_ Ha] Hcont].
    + split; [reflexivity | eexists; vm_compute; reflexivity].
    + repeat split; assumption.
  - destruct (generate_chapter_settles Fixture.key Fixture.reading 1 Fixture.chapterC
                (Rejected "offline") eq_refl eq_refl eq_refl)
      as (_ & _ & _ & _ & Hfin & c' & Hc' & Hg & _ & Hcont & Ha).
    split; [exact Hfin|]. exists c'. repeat split; assumption.
Defined.

Lemma twist_settles_witness :
  let r := exec (handleTwist Fixture.key (novelData Fixture.reading) 0)
             [Resolved (Some "E"); Resolved (Some "text")] Fixture.reading in
  snd r = Finished tt /\
  chapterAt (fst r) 0 =
    Some (mkChapter (Some 1) (Some "A") (Some "E") (Some "text") (Some false)).
Proof.
  pose proof (twist_settles Fixture.key Fixture.reading 0 Fixture.chapterA
                (Resolved (Some "E")) (Resolved (Some "text")) eq_refl eq_refl) as H.
  split.
  - apply H.
  - reflexivity.
Defined.

Lemma twist_failure_keeps_landed_summary_witness :
  alerts (fst (exec (handleTwist Fixture.key (novelData Fixture.reading) 0)
                 [Rejected "offline"; Rejected "offline"] Fixture.reading))
    = [MSG_TWIST_FAILED] /\
  alerts (fst (exec (handleTwist Fixture.key (novelData Fixture.reading) 0)
                 [Resolved (Some "E"); Rejected "offline"] Fixture.reading))
    = [MSG_TWIST_FAILED].
Proof.
  pose proof (twist_failure_keeps_landed_summary Fixture.key Fixture.reading 0
                Fixture.chapterA eq_refl eq_refl) as [Ha Hb].
  split.
  - apply (Ha "offline" (Rejected "offline")).
  - apply (Hb eq_refl "" eq_refl (Some "E") "offline").
Defined.

(** ** The continuity context *)

(** The place of the context in the prompt of [generatePlotTwist]: below a
    fixed heading, the context itself when it is not empty and a fixed
    sentence when it is. *)
Lemma twistPrompt_context_slot (config : ConfigObj) (chapter : Chapter) :
  exists pre post, forall previousChaptersSummary,
    twistPrompt config chapter previousChaptersSummary
    = pre ++ "سياق سابق:
    "
      ++ match previousChaptersSummary with
         | EmptyString => "بداية القصة."
         | _ => previousChaptersSummary
         end
      ++ post.
Proof.
  exists
  ("
    أنت مساعد روائي مبدع. قم بتعديل ملخص الفصل التالي لإضافة "
  ++ DQ
  ++ "حبكة مفاجئة"
  ++ DQ
  ++ " (Plot Twist) أو حدث غير متوقع يقلب الموازين، مع الحفاظ على سياق القصة ونوعها ("
  ++ (cfg Config.genre config)
  ++ ").

    "),
  ("

    ملخص الفصل الحالي (قبل التعديل):
    "
  ++ tpl_str (summary chapter)
  ++ "

    المطلوب:
    أعد كتابة ملخص هذا الفصل ليتضمن مفاجأة قوية أو كشف مثير أو عقبة غير متوقعة. اجعل الملخص مشوقاً جداً ومختلفاً عما هو متوقع.
    أرجع فقط النص الجديد للملخص بدون مقدمات.
  ").
  intros previousChaptersSummary. unfold twistPrompt, or_else.
  rewrite !StringFacts.append_assoc. reflexivity.
Qed.

(** The place of the context in the prompt of [generateChapterContent]: below a
    fixed heading, the context itself when it is not empty and a fixed
    sentence when it is. *)
Lemma contentPrompt_context_slot (config : ConfigObj) (chapter : Chapter) :
  exists pre post, forall previousChaptersSummary,
    contentPrompt config chapter previousChaptersSummary
    = pre ++ "سياق سابق (ما حدث قبل هذا الفصل):
    "
      ++ match previousChaptersSummary with
         | EmptyString => "هذا هو الفصل الأول."
         | _ => previousChaptersSummary
         end
      ++ post.
Proof.
  exists
  ("
    اكتب الفصل التالي من الرواية بالتفصيل.
    
    معلومات الرواية:
    - العنوان: "
  ++ (cfg Config.title config)
  ++ "
    - الأسلوب: "
  ++ (cfg Config.tone config)
  ++ "
    
    الفصل الحالي:
    - رقم الفصل: "
  ++ tpl_num (id chapter)
  ++ "
    - عنوان الفصل: "
  ++ tpl_str (title chapter)
  ++ "
    - ملخص أحداث هذا الفصل (يجب تغطيتها): "
  ++ tpl_str (summary chapter)
  ++ "
    
    "),
  ("
    
    تعليمات الكتابة:
    - اكتب باللغة العربية الفصحى السردية الغنية.
    - استخدم الحوار والوصف لبعث الحياة في المشهد.
    - لا تختصر الأحداث، بل اسردها بتفصيل روائي ممتع.
    - تأكد من أن طول الفصل مناسب (حوالي 1000-1500 كلمة).
  ").
  intros previousChaptersSummary. unfold contentPrompt, or_else.
  rewrite !StringFacts.append_assoc. reflexivity.
Qed.

Section Continuity.

Variable apiKey : option string.

Lemma firstn_dense n cs : firstn n (Arr.dense cs) = Arr.dense (firstn n cs).
Proof. unfold Arr.dense. now rewrite firstn_map. Qed.

Lemma map_obj_dense {B : Type} (f : Chapter -> B) cs :
  Arr.map_obj f (Arr.dense cs) = Ok (map (fun c => Some (f c)) cs).
Proof.
  unfold Arr.dense.
  induction cs as [|c r IH]; cbn [map Arr.map_obj]; auto. now rewrite IH.
Qed.

Lemma join_some sep (l : list string) :
  Arr.join sep (map Some l) = String.concat sep l.
Proof. unfold Arr.join. now rewrite map_map, map_id. Qed.

Lemma contextSummary_dense cs i :
  0 <= i ->
  contextSummary (Arr.dense cs) i
  = Ok (String.concat LF (map contextLine (firstn (Z.to_nat i) cs))).
Proof.
  intros Hi. unfold contextSummary, Arr.slice0.
  destruct (Z.ltb_spec i 0); [lia|].
  rewrite firstn_dense, map_obj_dense.
  rewrite <- (map_map contextLine Some), join_some.
  do 3 f_equal.
  unfold Arr.length, Arr.dense. rewrite length_map.
  destruct (Z.le_ge_cases i (Z.of_nat (List.length cs))).
  - now rewrite Z.min_l.
  - rewrite Z.min_r, Nat2Z.id by lia.
    rewrite !firstn_all2; auto; lia.
Qed.

(** C7 (amended).  In an outline whose elements are all chapter
    objects, let chapter [i] exist and the key be set.  The context that
    generate-chapter and twist build is one line per chapter at an
    index below [i], every one of them, with or without content, in
    order, joined by newlines; a line reads "chapter <id>: <summary>";
    the context is the empty string for [i = 0].  This same string is
    what generate-chapter passes to the generation client for its
    content request, and what twist passes both for its rewrite request
    and, after the rewrite, for its content request.  The request that
    goes to the provider carries the context below a fixed heading of
    the prompt: the context itself when it is not empty, and a fixed
    opening sentence in its place when it is empty. *)
Theorem continuity_context_is_prior_summaries
    (s : App) (cs : list Chapter) (i : Z) (c : Chapter) :
  outline (novelData s) = Arr.dense cs ->
  chapterAt s i = Some c ->
  truthy_str apiKey = true ->
  let line := fun d : Chapter =>
    "فصل "
    ++ match id d with
       | Some n => NilZero.string_of_int (Z.to_int n)
       | None => "undefined"
       end
    ++ ": "
    ++ match summary d with
       | Some text => text
       | None => "undefined"
       end in
  let ctx := String.concat (String "010"%char EmptyString)
               (map line (firstn (Z.to_nat i) cs)) in
  let marked := perform (markGenerating i) s in
  contextSummary (outline (novelData s)) i = Ok ctx /\
  (i = 0 -> ctx = EmptyString) /\
  (forall d, contextLine d = line d) /\
  (truthy_str (content c) = false -> truthy_bool (isGenerating c) = false ->
   exists k,
     run (handleGenerateChapter apiKey (novelData s) i) s
     = (marked,
        Blocked (mkRequest MODEL_COMPLEX (contentPrompt (config (novelData s)) c ctx)
                   (ContentConfig 1024)) k)) /\
  (truthy_bool (isGenerating c) = false ->
   exists k,
     run (handleTwist apiKey (novelData s) i) s
     = (marked,
        Blocked (mkRequest MODEL_COMPLEX (twistPrompt (config (novelData s)) c ctx)
                   TwistConfig) k) /\
     forall text,
     exists k2,
       run (k (Resolved text)) marked
       = (perform (setNovelData
                     (PatchChapter i (patch_summary (or_str_opt text (summary c)))))
            marked,
          Blocked (mkRequest MODEL_COMPLEX
                     (contentPrompt (config (novelData s))
                        (with_summary c (or_str_opt text (summary c))) ctx)
                     (ContentConfig 1024)) k2)) /\
  (forall config chapter, exists pre post, forall previous,
     contentPrompt config chapter previous
     = pre ++ "سياق سابق (ما حدث قبل هذا الفصل):
    "
       ++ match previous with
          | EmptyString => "هذا هو الفصل الأول."
          | _ => previous
          end
       ++ post) /\
  (forall config chapter, exists pre post, forall previous,
     twistPrompt config chapter previous
     = pre ++ "سياق سابق:
    "
       ++ match previous with
          | EmptyString => "بداية القصة."
          | _ => previous
          end
       ++ post).
Proof.
  intros Hd Hc Hk line ctx marked.
  assert (Hi : 0 <= i) by (apply ArrFacts.get_in_range in Hc; lia).
  assert (Hctx : contextSummary (outline (novelData s)) i = Ok ctx)
    by (rewrite Hd; now apply contextSummary_dense).
  pose proof Hc as Hc'. unfold chapterAt in Hc'.
  split; [exact Hctx|].
  split; [intros ->; reflexivity|].
  split; [intros d; reflexivity|].
  split; [|split; [|split]].
  - intros Hcont Hgen. unfold handleGenerateChapter, generateChapterContent.
    rewrite Hc', Hcont, Hgen, Hctx, Hk.
    cbn [orb lift bind try_catch negb run act]. eexists; reflexivity.
  - intros Hgen. unfold handleTwist, generatePlotTwist, generateChapterContent.
    rewrite Hc', Hgen, Hctx, Hk.
    cbn [orb lift bind try_catch negb run act]. eexists; split; [reflexivity|].
    intros text. cbn [orb lift bind try_catch negb run act]. eexists; reflexivity.
  - exact contentPrompt_context_slot.
  - exact twistPrompt_context_slot.
Qed.

End Continuity.

(** C7 (as stated) fails at [i = 0].  The context that generate-chapter
    and twist build for the first chapter is the empty string, but that
    is not what their requests carry: where the prompt has the context
    of a later chapter, the request for the first chapter has a fixed
    sentence, ["هذا هو الفصل الأول."] for the content and
    ["بداية القصة."] for the rewrite. *)
Lemma first_chapter_request_carries_fixed_sentence :
  let s := Fixture.reading in
  let marked := perform (markGenerating 0) s in
  contextSummary (outline (novelData s)) 0 = Ok EmptyString /\
  (exists pre post k,
     (forall previous, previous <> EmptyString ->
        contentPrompt (config (novelData s)) Fixture.chapterA previous
        = pre ++ previous ++ post) /\
     run (handleGenerateChapter Fixture.key (novelData s) 0) s
     = (marked,
        Blocked (mkRequest MODEL_COMPLEX (pre ++ "هذا هو الفصل الأول." ++ post)
                   (ContentConfig 1024)) k) /\
     pre ++ "هذا هو الفصل الأول." ++ post <> pre ++ EmptyString ++ post) /\
  (exists pre post k,
     (forall previous, previous <> EmptyString ->
        twistPrompt (config (novelData s)) Fixture.chapterA previous
        = pre ++ previous ++ post) /\
     run (handleTwist Fixture.key (novelData s) 0) s
     = (marked,
        Blocked (mkRequest MODEL_COMPLEX (pre ++ "بداية القصة." ++ post)
                   TwistConfig) k) /\
     pre ++ "بداية القصة." ++ post <> pre ++ EmptyString ++ post).
Proof.
  intros s marked. subst s marked.
  change (config (novelData Fixture.reading)) with (Some Fixture.premise).
  split; [reflexivity|]. split.
  - destruct (contentPrompt_context_slot (Some Fixture.premise) Fixture.chapterA)
      as (pre & post & H).
    eexists (pre ++ _), post, _. split; [|split].
    + intros previous Hne. rewrite (H previous), StringFacts.append_assoc.
      destruct previous; [congruence | reflexivity].
    + unfold handleGenerateChapter, generateChapterContent.
      cbn -[contentPrompt append]. rewrite (H EmptyString), <- StringFacts.append_assoc.
      reflexivity.
    + intros E. apply StringFacts.append_cancel in E.
      exact (StringFacts.append_grows _ _ _ E).
  - destruct (twistPrompt_context_slot (Some Fixture.premise) Fixture.chapterA)
      as (pre & post & H).
    eexists (pre ++ _), post, _. split; [|split].
    + intros previous Hne. rewrite (H previous), StringFacts.append_assoc.
      destruct previous; [congruence | reflexivity].
    + unfold handleTwist, generatePlotTwist.
      cbn -[twistPrompt append]. rewrite (H EmptyString), <- StringFacts.append_assoc.
      reflexivity.
    + intros E. apply StringFacts.append_cancel in E.
      exact (StringFacts.append_grows _ _ _ E).
Qed.

Lemma continuity_context_is_prior_summaries_witness :
  let s := Fixture.reading in
  contextSummary (outline (novelData s)) 1 = Ok "فصل 1: B" /\
  exists k,
    run (handleGenerateChapter Fixture.key (novelData s) 1) s
    = (perform (markGenerating 1) s,
       Blocked (mkRequest MODEL_COMPLEX
                  (contentPrompt (Some Fixture.premise) Fixture.chapterC "فصل 1: B")
                  (ContentConfig 1024)) k).
Proof.
  pose proof (continuity_context_is_prior_summaries Fixture.key Fixture.reading
                [Fixture.chapterA; Fixture.chapterC] 1 Fixture.chapterC
                eq_refl eq_refl eq_refl) as (H1 & _ & _ & H4 & _).
  split; [exact H1 | exact (H4 eq_refl eq_refl)].
Defined.

(** ** The session invariant *)

Section Invariant.

Variable apiKey : option string.
Variable JSON_parse : string -> option OutlineReply.

Lemma numbered_spread a : forall k, numbered k a -> Arr.spread a = a.
Proof.
  induction a as [|[| |c] r IH]; intros k H; simpl in H; try tauto.
  destruct H as [_ H]. unfold Arr.spread in *. cbn [map]. f_equal. exact (IH _ H).
Qed.

Lemma numbered_replace a : forall k n c c',
  numbered k a ->
  nth_error a n = Some (Obj c) ->
  id c' = id c ->
  numbered k (Arr.replace a n c').
Proof.
  induction a as [|[| |d] r IH]; intros k [|n] c c' H Hn Hid; simpl in *;
    try tauto; try discriminate.
  - destruct H as [Hd H]. injection Hn as ->. split; congruence.
  - destruct H as [Hd H]. split; eauto.
Qed.

Lemma numbered_chaptersFrom items : forall k, numbered k (chaptersFrom k items).
Proof. induction items as [|c r IH]; intros k; simpl; auto. Qed.

Lemma numbered_dense a : forall k, numbered k a -> a = Arr.dense (objects a).
Proof.
  induction a as [|[| |c] r IH]; intros k H; simpl in *; try tauto.
  destruct H as [_ H]. f_equal. eauto.
Qed.

Lemma get_nth a i c : Arr.get a i = Some c -> nth_error a (Z.to_nat i) = Some (Obj c).
Proof.
  unfold Arr.get. destruct (i <? 0); [discriminate|].
  destruct (nth_error a (Z.to_nat i)) as [[| |d]|]; congruence.
Qed.

Lemma numbered_get a i : numbered 0 a -> 0 <= i < Arr.length a -> exists c, Arr.get a i = Some c.
Proof.
  intros H Hi. rewrite (numbered_dense _ _ H) in *.
  unfold Arr.get, Arr.dense, Arr.length in *. rewrite length_map in Hi.
  destruct (Z.ltb_spec i 0); [lia|]. rewrite nth_error_map.
  destruct (nth_error (objects a) (Z.to_nat i)) eqn:E; simpl; eauto.
  apply nth_error_None in E. lia.
Qed.

(** An update of a chapter below [n] keeps a numbered outline numbered
    and of the same length. *)
Lemma patch_numbered a i p :
  numbered 0 a -> 0 <= i < Arr.length a ->
  let a' := Arr.set (Arr.spread a) i (apply_patch p (Arr.get (Arr.spread a) i)) in
  numbered 0 a' /\ Arr.length a' = Arr.length a.
Proof.
  intros H Hi. cbv zeta. rewrite (numbered_spread _ _ H).
  split; [|now apply ArrFacts.set_length].
  destruct (numbered_get _ _ H Hi) as [c Hc]. rewrite Hc.
  unfold Arr.set. destruct (Z.ltb_spec i 0); [lia|].
  destruct (Z.ltb_spec i (Arr.length a)); [|lia].
  eapply numbered_replace; eauto using get_nth.
Qed.

Lemma perform_reading_ok n e s :
  reading_ok n s -> effect_ok n e -> reading_ok n (perform e s).
Proof.
  intros (Hst & Hnum & Hlen & Hcur) He.
  destruct e as [a|b|m|[nd|i p|k]| |m|f t]; simpl in He; try tauto;
    try exact (conj Hst (conj Hnum (conj Hlen Hcur))).
  subst n.
  destruct (patch_numbered _ _ p Hnum He) as [Hnum' Hlen'].
  unfold reading_ok, cursor_valid in *; simpl.
  rewrite Hlen'. repeat split; auto; apply Hcur; auto.
Qed.

Lemma run_task_ok n : forall (t : task unit) s,
  task_ok n t -> reading_ok n s ->
  reading_ok n (fst (run t s)) /\
  match snd (run t s) with
  | Blocked _ k => forall o, task_ok n (k o)
  | _ => True
  end.
Proof.
  induction t as [a|e|e k IH|req k IH]; intros s Ht Hs; simpl in *; auto.
  destruct Ht as [He Hk]. apply IH; auto using perform_reading_ok.
Qed.

Lemma task_ok_bind {A B : Type} n (t : task A) (f : A -> task B) :
  task_ok n t -> (forall a, task_ok n (f a)) -> task_ok n (bind t f).
Proof.
  induction t as [a|e|e k IH|req k IH]; simpl; intros Ht Hf; auto.
  destruct Ht; auto.
Qed.

Lemma task_ok_try_catch {A : Type} n (t : task A) (h : Exn -> task A) :
  task_ok n t -> (forall e, task_ok n (h e)) -> task_ok n (try_catch t h).
Proof.
  induction t as [a|e|e k IH|req k IH]; simpl; intros Ht Hf; auto.
  destruct Ht; auto.
Qed.

Lemma task_ok_lift {A : Type} n (r : result A) : task_ok n (lift r).
Proof. destruct r; exact I. Qed.

Lemma task_ok_generateChapterContent n cfg0 c ctx :
  task_ok n (generateChapterContent apiKey cfg0 c ctx).
Proof.
  unfold generateChapterContent. destruct (negb (truthy_str apiKey)); simpl; auto.
  intros [r|t]; exact I.
Qed.

Lemma task_ok_generatePlotTwist n cfg0 c ctx :
  task_ok n (generatePlotTwist apiKey cfg0 c ctx).
Proof.
  unfold generatePlotTwist. destruct (negb (truthy_str apiKey)); simpl; auto.
  intros [r|t]; exact I.
Qed.

Create HintDb rawi.
#[local] Hint Resolve task_ok_lift task_ok_generateChapterContent task_ok_generatePlotTwist
  : rawi.

Lemma task_ok_handleGenerateChapter d i :
  task_ok (Arr.length (outline d)) (handleGenerateChapter apiKey d i).
Proof.
  unfold handleGenerateChapter.
  destruct (Arr.get (outline d) i) as [c|] eqn:Hc; [|exact I].
  apply ArrFacts.get_in_range in Hc.
  destruct (truthy_str (content c) || truthy_bool (isGenerating c)); [exact I|].
  simpl. split; [exact Hc|].
  apply task_ok_try_catch.
  - apply task_ok_bind; auto with rawi. intros ctx.
    apply task_ok_bind; auto with rawi. intros text. simpl; auto.
  - intros e. simpl; auto.
Qed.

Lemma task_ok_handleTwist d i :
  task_ok (Arr.length (outline d)) (handleTwist apiKey d i).
Proof.
  unfold handleTwist.
  destruct (Arr.get (outline d) i) as [c|] eqn:Hc; [|exact I].
  apply ArrFacts.get_in_range in Hc.
  destruct (truthy_bool (isGenerating c)); [exact I|].
  simpl. split; [exact Hc|].
  apply task_ok_try_catch.
  - apply task_ok_bind; auto with rawi. intros ctx.
    apply task_ok_bind; auto with rawi. intros newSummary.
    simpl. split; [exact Hc|].
    apply task_ok_bind; auto with rawi. intros text. simpl; auto.
  - intros e. simpl; auto.
Qed.

Lemma task_ok_handleExport n d : task_ok n (handleExport d).
Proof.
  unfold handleExport.
  destruct (Arr.filter_obj _ (outline d)); simpl; auto.
Qed.

Lemma handleStart_from_setup premise s :
  setup_ok s ->
  (exists s',
     run (handleStart apiKey JSON_parse premise) s = (s', Finished tt) /\
     setup_ok s' /\ isLoading s' = false) \/
  (exists s' req k,
     run (handleStart apiKey JSON_parse premise) s = (s', Blocked req k) /\
     setup_ok s' /\ isLoading s' = true /\ forall o, start_ok (k o)).
Proof.
  intros Hs. unfold handleStart, generateNovelOutline.
  destruct (truthy_str apiKey); cbn [negb bind act try_catch try_finally run].
  - right. do 3 eexists. split; [reflexivity|].
    split; [exact Hs|]. split; [reflexivity|].
    intros o s2 Hs2.
    destruct o as [reason|[[|a b]|]];
      cbn [negb bind act try_catch try_finally run];
      try (eexists; split; [reflexivity|]; left; split; [exact Hs2|reflexivity]).
    destruct (JSON_parse (String a b)) as [[[elements|]]|];
      cbn [chapters negb bind act try_catch try_finally run];
      try (eexists; split; [reflexivity|]; left; split; [exact Hs2|reflexivity]).
    destruct (objectItems elements) as [items|e];
      cbn [lift chapters negb bind act try_catch try_finally run];
      try (eexists; split; [reflexivity|]; left; split; [exact Hs2|reflexivity]).
    eexists; split; [reflexivity|]. right.
    unfold reading_ok, cursor_valid; simpl.
    repeat split; auto using numbered_chaptersFrom; unfold Arr.length in *; lia.
  - left. eexists. split; [reflexivity|]. split; [exact Hs|reflexivity].
Qed.

Lemma Forall_drop_nth {A : Type} (P : A -> Prop) l : forall n,
  Forall P l -> Forall P (drop_nth n l).
Proof.
  induction l as [|x r IH]; intros [|n] H; simpl; auto;
    inversion H; subst; auto.
Qed.

(** A handler of the reader, started or resumed in a reading session,
    leaves a reading session. *)
Lemma launch_reading t sys :
  let n := Arr.length (outline (novelData (app sys))) in
  reading_ok n (app sys) ->
  Forall (fun k => forall o, task_ok n (k o)) (pending sys) ->
  task_ok n t ->
  Inv (launch t sys).
Proof.
  intros n Hs Hp Ht.
  destruct (run_task_ok n t (app sys) Ht Hs) as [Hs' Hk].
  unfold launch. destruct (run t (app sys)) as [s' st]. simpl in Hs', Hk.
  assert (Hn : Arr.length (outline (novelData s')) = n) by apply Hs'.
  assert (Hst : appState s' = READING) by apply Hs'.
  destruct st as [a|e|req k]; unfold Inv; simpl; rewrite Hst, Hn; split; auto.
  apply Forall_app; split; auto.
Qed.

Lemma Inv_reading sys :
  Inv sys -> appState (app sys) = READING ->
  let n := Arr.length (outline (novelData (app sys))) in
  reading_ok n (app sys) /\ Forall (fun k => forall o, task_ok n (k o)) (pending sys).
Proof. intros H E. unfold Inv in H. rewrite E in H. exact H. Qed.

Lemma isReading_true s : isReading s = true -> appState s = READING.
Proof. unfold isReading. destruct (appState s); congruence. Qed.

Lemma isSetup_true s : isSetup s = true -> appState s = SETUP.
Proof. unfold isSetup. destruct (appState s); congruence. Qed.

Lemma fire_preserves_Inv sys ev sys' :
  Inv sys -> fire apiKey JSON_parse sys ev = Some sys' -> Inv sys'.
Proof.
  intros HI Hf. destruct ev as [premise|i|i|i| | |n o]; simpl in Hf.
  - (* Submit *)
    destruct (isSetup (app sys)) eqn:Hst; [|discriminate].
    destruct (isLoading (app sys)) eqn:Hl; [discriminate|].
    injection Hf as <-. apply isSetup_true in Hst.
    unfold Inv in HI. rewrite Hst in HI. destruct HI as [Hs [[_ Hp]|[Hl' _]]]; [|congruence].
    unfold launch.
    destruct (handleStart_from_setup premise _ Hs)
      as [(s' & -> & Hs' & Hl')|(s' & req & k & -> & Hs' & Hl' & Hk)];
      unfold Inv; simpl; rewrite (proj1 Hs'); (split; [exact Hs'|]).
    + left. now split.
    + right. split; auto. exists k. rewrite Hp. now split.
  - (* Generate *)
    destruct (isReading (app sys)) eqn:Hst; [|discriminate].
    injection Hf as <-. apply isReading_true in Hst.
    destruct (Inv_reading _ HI Hst). apply launch_reading; auto.
    apply task_ok_handleGenerateChapter.
  - (* Twist *)
    destruct (isReading (app sys)) eqn:Hst; [|discriminate].
    injection Hf as <-. apply isReading_true in Hst.
    destruct (Inv_reading _ HI Hst). apply launch_reading; auto.
    apply task_ok_handleTwist.
  - (* Select *)
    destruct (isReading (app sys)) eqn:Hst; [|discriminate].
    destruct (Z.leb_spec 0 i); [|discriminate].
    destruct (Z.ltb_spec i (Arr.length (outline (novelData (app sys))))); [|discriminate].
    injection Hf as <-. apply isReading_true in Hst.
    destruct (Inv_reading _ HI Hst) as [(H1 & H2 & H3 & H4) Hp].
    unfold Inv, launch; simpl. rewrite Hst. split; auto.
    unfold reading_ok, cursor_valid; simpl. repeat split; auto.
  - (* Export *)
    destruct (isReading (app sys)) eqn:Hst; [|discriminate].
    injection Hf as <-. apply isReading_true in Hst.
    destruct (Inv_reading _ HI Hst). apply launch_reading; auto.
    apply task_ok_handleExport.
  - (* DismissError *)
    destruct (truthy_str (error (app sys))); [|discriminate].
    injection Hf as <-. unfold Inv, launch in *; simpl. exact HI.
  - (* Settle *)
    destruct (nth_error (pending sys) n) as [k|] eqn:Hk; [|discriminate].
    injection Hf as <-.
    unfold Inv in HI. destruct (appState (app sys)) eqn:Hst; [| tauto |].
    + destruct HI as [Hs [[_ Hp]|[Hl (k0 & Hp & Hk0)]]].
      * rewrite Hp in Hk. destruct n; discriminate.
      * rewrite Hp in Hk |- *.
        destruct n as [|n]; [|destruct n; discriminate].
        injection Hk as <-.
        destruct (Hk0 o _ Hs) as (s' & Hrun & Hs').
        unfold launch; simpl. rewrite Hrun.
        destruct Hs' as [[Hs' Hl']|Hr]; unfold Inv; simpl.
        -- rewrite (proj1 Hs'). split; auto.
        -- rewrite (proj1 Hr). split; auto.
    + destruct HI as [Hr Hp].
      apply launch_reading; simpl; auto using Forall_drop_nth.
      rewrite Forall_forall in Hp. apply Hp. eapply nth_error_In; eauto.
Qed.

Lemma Inv_initial : Inv initialSys.
Proof. unfold Inv, setup_ok; simpl. repeat split; auto. Qed.

Lemma fire_all_preserves_Inv evs : forall sys sys',
  Inv sys -> fire_all apiKey JSON_parse sys evs = Some sys' -> Inv sys'.
Proof.
  induction evs as [|ev rest IH]; intros sys sys' HI Hf; simpl in Hf.
  - now injection Hf as <-.
  - destruct (fire apiKey JSON_parse sys ev) as [sys1|] eqn:E; [|discriminate].
    eauto using fire_preserves_Inv.
Qed.

Lemma reachable_Inv sys : reachable apiKey JSON_parse sys -> Inv sys.
Proof. intros [evs H]. eapply fire_all_preserves_Inv; eauto using Inv_initial. Qed.

End Invariant.

(** ** The cursor and the export *)

Section Reachable.

Variable apiKey : option string.
Variable JSON_parse : string -> option OutlineReply.

Lemma reachable_numbered sys :
  reachable apiKey JSON_parse sys -> numbered 0 (outline (novelData (app sys))).
Proof.
  intros H. apply reachable_Inv in H. unfold Inv in H.
  destruct (appState (app sys)); try tauto.
  - destruct H as [(_ & -> & _) _]. exact I.
  - apply H.
Qed.

Lemma reachable_cursor sys :
  reachable apiKey JSON_parse sys ->
  outline (novelData (app sys)) <> [] -> cursor_valid (novelData (app sys)).
Proof.
  intros H Hne. apply reachable_Inv in H. unfold Inv in H.
  destruct (appState (app sys)); try tauto.
  - destruct H as [(_ & E & _) _]. congruence.
  - destruct H as [(_ & _ & _ & Hc) _]. apply Hc.
    unfold Arr.length. destruct (outline (novelData (app sys))); simpl; [congruence|lia].
Qed.

Lemma reachable_step sys ev sys' :
  reachable apiKey JSON_parse sys ->
  fire apiKey JSON_parse sys ev = Some sys' ->
  reachable apiKey JSON_parse sys'.
Proof.
  intros [evs H] Hf. exists (evs ++ [ev])%list.
  revert H. generalize initialSys. induction evs as [|e r IH]; intros s0 H; simpl in *.
  - injection H as ->. now rewrite Hf.
  - destruct (fire apiKey JSON_parse s0 e); [eauto|discriminate].
Qed.

(** C8 (amended).  In every reachable session state whose outline has
    at least one chapter the cursor is an index of the outline.  In
    such a state select-chapter is offered for every index [k] of the
    outline, sets the cursor to [k] and changes nothing else of the
    novel; and whatever event fires next, the state it leads to has a
    valid cursor again if it has chapters.  On the form, before there
    is an outline, the session has no chapters and the cursor is 0. *)
Theorem cursor_valid_when_chapters_exist (sys : Sys) :
  reachable apiKey JSON_parse sys ->
  let d := novelData (app sys) in
  (outline d <> [] -> cursor_valid d) /\
  (appState (app sys) = SETUP -> outline d = [] /\ currentChapterIndex d = 0) /\
  (forall k, 0 <= k < Arr.length (outline d) ->
     exists sys',
       fire apiKey JSON_parse sys (Select k) = Some sys' /\
       novelData (app sys') = mkNovelData (config d) (outline d) k /\
       cursor_valid (novelData (app sys'))) /\
  (forall ev sys',
     fire apiKey JSON_parse sys ev = Some sys' ->
     outline (novelData (app sys')) <> [] ->
     cursor_valid (novelData (app sys'))).
Proof.
  intros Hr d. split; [now apply reachable_cursor|]. split; [|split].
  - intros Hst. subst d.
    pose proof (reachable_Inv _ _ _ Hr) as HI. unfold Inv in HI.
    rewrite Hst in HI. destruct HI as [(_ & E & Ec) _]. now split.
  - intros k Hk. subst d.
    pose proof (reachable_Inv _ _ _ Hr) as HI. unfold Inv in HI.
    destruct (appState (app sys)) eqn:Hst; try tauto.
    + destruct HI as [(_ & E & _) _]. rewrite E in Hk. unfold Arr.length in Hk.
      simpl in Hk. lia.
    + unfold fire, isReading. rewrite Hst.
      destruct (Z.leb_spec 0 k); [|lia].
      destruct (Z.ltb_spec k (Arr.length (outline (novelData (app sys))))); [|lia].
      eexists. split; [reflexivity|]. split; [reflexivity|exact Hk].
  - intros ev sys' Hf. apply reachable_cursor. eapply reachable_step; eauto.
Qed.

Lemma filter_obj_dense p cs : Arr.filter_obj p (Arr.dense cs) = Ok (filter p cs).
Proof.
  unfold Arr.dense.
  induction cs as [|c r IH]; cbn [map Arr.filter_obj filter]; auto. now rewrite IH.
Qed.

Lemma numbered_above a : forall k,
  numbered k a -> Forall (fun c => exists y, id c = Some y /\ k < y) (objects a).
Proof.
  induction a as [|[| |c] r IH]; intros k H; simpl in *; try tauto; auto.
  destruct H as [Hc H]. constructor.
  - exists (k + 1). split; [exact Hc|lia].
  - eapply Forall_impl; [|exact (IH _ H)].
    intros d (y & Hy & Hlt). exists y. split; [exact Hy|lia].
Qed.

Lemma numbered_ascending a : forall k, numbered k a -> ascending (objects a).
Proof.
  induction a as [|[| |c] r IH]; intros k H; simpl in *; try tauto.
  destruct H as [Hc H]. split; eauto.
  eapply Forall_impl; [|exact (numbered_above _ _ H)].
  intros d (y & Hy & Hlt). unfold id_lt. rewrite Hc, Hy. lia.
Qed.

Lemma Forall_filter_keep {A : Type} (P : A -> Prop) p l :
  Forall P l -> Forall P (filter p l).
Proof.
  induction 1 as [|x r Hx Hr IH]; simpl; auto. destruct (p x); auto.
Qed.

Lemma ascending_filter p cs : ascending cs -> ascending (filter p cs).
Proof.
  induction cs as [|c r IH]; simpl; auto. intros [Hc Hr].
  destruct (p c); simpl; auto using Forall_filter_keep.
Qed.

(** C9.  In every reachable session state the outline consists of
    chapter objects only, and export offers one file, named after the
    novel's title, whose text is made of one piece per chapter with
    non-empty content and of no other chapter, in outline order, which
    is strictly ascending id order.  A piece is the chapter's heading
    with its id and title, an empty line and the chapter's content;
    between two pieces stands a line of nineteen dashes with an empty
    line before and after it.  The handler finishes without awaiting
    the provider, and the only thing it changes in the session is the
    list of downloads. *)
Theorem export_joins_generated_chapters (sys : Sys) :
  reachable apiKey JSON_parse sys ->
  let s := app sys in
  let d := novelData s in
  let nl := String "010"%char EmptyString in
  let generated := fun c : Chapter =>
    match content c with
    | Some (String _ _) => true
    | _ => false
    end in
  let piece := fun c : Chapter =>
    "الفصل "
    ++ match id c with
       | Some n => NilZero.string_of_int (Z.to_int n)
       | None => "undefined"
       end
    ++ ": "
    ++ match title c with
       | Some t => t
       | None => "undefined"
       end
    ++ nl ++ nl
    ++ match content c with
       | Some text => text
       | None => "undefined"
       end in
  let cs := filter generated (objects (outline d)) in
  let fullText :=
    String.concat (nl ++ nl ++ "-------------------" ++ nl ++ nl) (map piece cs) in
  let fileName :=
    match config d with
    | Some c => Config.title c
    | None => "undefined"
    end ++ ".txt" in
  let s' := fst (run (handleExport d) s) in
  outline d = Arr.dense (objects (outline d)) /\
  ascending cs /\
  snd (run (handleExport d) s) = Finished tt /\
  downloads s' = (fileName, fullText) :: downloads s /\
  novelData s' = d /\
  appState s' = appState s /\ isLoading s' = isLoading s /\
  error s' = error s /\ alerts s' = alerts s.
Proof.
  intros Hr s d nl generated piece cs fullText fileName s'.
  pose proof (reachable_numbered _ Hr) as Hn. fold s d in Hn.
  pose proof (numbered_dense _ _ Hn) as Hd.
  split; [exact Hd|].
  split; [apply ascending_filter; eapply numbered_ascending; exact Hn|].
  subst s' fullText fileName cs. unfold handleExport.
  remember (objects (outline d)) as chapters eqn:Hall.
  rewrite Hd, filter_obj_dense.
  cbn [lift bind act run fst snd perform].
  repeat split; try reflexivity.
  cbn [downloads]. f_equal. f_equal.
  unfold cfg. destruct (config d); reflexivity.
Qed.

End Reachable.

(** C8 (as stated) fails in the state every session starts in: on the
    form there are no chapters yet, the cursor is 0, and 0 is not an
    index of an empty outline. *)
Lemma initial_cursor_is_not_an_index :
  reachable Fixture.key Fixture.parse initialSys /\
  appState (app initialSys) = SETUP /\
  outline (novelData (app initialSys)) = [] /\
  currentChapterIndex (novelData (app initialSys)) = 0 /\
  ~ cursor_valid (novelData (app initialSys)).
Proof.
  split; [exists []; reflexivity|].
  repeat split.
  unfold cursor_valid; vm_compute; intros [_ H]; discriminate.
Qed.

Lemma cursor_valid_when_chapters_exist_witness :
  let d := novelData (app Fixture.selected) in
  outline d <> [] /\
  cursor_valid d /\
  exists sys',
    fire Fixture.key Fixture.parse Fixture.selected (Select 0) = Some sys' /\
    novelData (app sys') = mkNovelData (config d) (outline d) 0 /\
    cursor_valid (novelData (app sys')).
Proof.
  pose proof (cursor_valid_when_chapters_exist Fixture.key Fixture.parse Fixture.selected
                (ex_intro _ Fixture.events eq_refl)) as (H1 & _ & H3 & _).
  split; [discriminate|].
  split; [apply H1; discriminate|].
  apply (H3 0). vm_compute. split; [discriminate | reflexivity].
Defined.

Lemma export_joins_generated_chapters_witness :
  let nl := String "010"%char EmptyString in
  let s := app Fixture.written in
  downloads (fst (run (handleExport (novelData s)) s))
  = [("T.txt",
      "الفصل 1: A" ++ nl ++ nl ++ "one"
      ++ nl ++ nl ++ "-------------------" ++ nl ++ nl
      ++ "الفصل 3: E" ++ nl ++ nl ++ "three")].
Proof.
  exact (proj1 (proj2 (proj2 (proj2
           (export_joins_generated_chapters Fixture.key Fixture.parse Fixture.written
              (ex_intro _ Fixture.writing eq_refl)))))).
Defined.

(** * Further properties of the workflow *)

(** ** One handler, one chapter *)

Section Frame.

Variable apiKey : option string.

Lemma patch_keeps_length s i p c :
  chapterAt s i = Some c ->
  Arr.length (outline (novelData (perform (setNovelData (PatchChapter i p)) s)))
  = Arr.length (outline (novelData s)).
Proof.
  intros H. unfold chapterAt in H. apply ArrFacts.get_in_range in H. simpl.
  rewrite ArrFacts.set_length.
  - unfold Arr.length. now rewrite ArrFacts.spread_length.
  - unfold Arr.length in *. now rewrite ArrFacts.spread_length.
Qed.

Lemma frame_refl i s : frame i s s.
Proof. unfold frame. repeat split; auto. intros c H. eauto. Qed.

Lemma frame_trans i s1 s2 s3 : frame i s1 s2 -> frame i s2 s3 -> frame i s1 s3.
Proof.
  intros (A1 & A2 & A3 & A4 & A5 & A6 & A7 & A8 & A9)
         (B1 & B2 & B3 & B4 & B5 & B6 & B7 & B8 & B9).
  unfold frame. repeat split; try congruence.
  - intros j Hj. rewrite B1, A1; auto.
  - intros c Hc. destruct (A9 _ Hc) as (c2 & H2 & Hi & Ht).
    destruct (B9 _ H2) as (c3 & H3 & Hi3 & Ht3).
    exists c3. repeat split; congruence.
Qed.

Lemma frame_patch s i p c :
  chapterAt s i = Some c -> frame i s (perform (setNovelData (PatchChapter i p)) s).
Proof.
  intros H. unfold frame. repeat split; auto.
  - intros j Hj. now apply (patched_elsewhere s i p c H).
  - now apply (patch_keeps_length s i p c).
  - intros c0 H0. rewrite (patched_chapter s i p c H).
    eexists. split; [reflexivity|]. assert (c0 = c) by congruence. subst c0.
    split; reflexivity.
Qed.

(** A task that [settles] chapter [i], run to the end against any
    outcomes, leaves everything but chapter [i] alone. *)
Lemma exec_settles_frame i : forall (t : task unit) b s os c,
  settles i b t -> chapterAt s i = Some c -> frame i s (fst (exec t os s)).
Proof.
  induction t as [a|e|e k IH|req k IH]; intros b s os c Ht Hc; simpl in *.
  - apply frame_refl.
  - apply frame_refl.
  - destruct e as [a|l|m|[nd|j p|x]| |m|f x]; try tauto.
    + destruct Ht as [-> Ht].
      eapply frame_trans; [apply (frame_patch s i p c Hc)|].
      eapply IH; [exact Ht|]. apply (patched_chapter s i p c Hc).
    + eapply IH; eauto.
    + eapply frame_trans; [|eapply (IH _ (perform (alert m) s)); eauto].
      unfold frame. repeat split; auto. intros c0 H0. eauto.
  - destruct Ht as [_ Ht]. destruct os as [|o os]; simpl.
    + apply frame_refl.
    + eapply IH; eauto.
Qed.

(** The three ways a chapter handler can go: the guard dereferences
    [undefined]; the guard returns; or the handler sets the flag and
    everything after that settles the chapter. *)
Lemma handleGenerateChapter_shape d i :
  match Arr.get (outline d) i with
  | None => handleGenerateChapter apiKey d i = Throw TypeError
  | Some c =>
      if truthy_str (content c) || truthy_bool (isGenerating c)
      then handleGenerateChapter apiKey d i = Ret tt
      else exists rest,
             handleGenerateChapter apiKey d i = Act (markGenerating i) rest /\
             settles i true rest
  end.
Proof.
  unfold handleGenerateChapter, generateChapterContent.
  destruct (Arr.get (outline d) i) as [c|]; [|reflexivity].
  destruct (truthy_str (content c) || truthy_bool (isGenerating c)); [reflexivity|].
  eexists. split; [reflexivity|].
  destruct (contextSummary (outline d) i) as [ctx|e];
    destruct (truthy_str apiKey); cbn; auto.
  split; [reflexivity|]. intros [reason|text]; cbn; auto.
Qed.

Lemma handleTwist_shape d i :
  match Arr.get (outline d) i with
  | None => handleTwist apiKey d i = Throw TypeError
  | Some c =>
      if truthy_bool (isGenerating c)
      then handleTwist apiKey d i = Ret tt
      else exists rest,
             handleTwist apiKey d i = Act (markGenerating i) rest /\
             settles i true rest
  end.
Proof.
  unfold handleTwist, generatePlotTwist, generateChapterContent.
  destruct (Arr.get (outline d) i) as [c|]; [|reflexivity].
  destruct (truthy_bool (isGenerating c)); [reflexivity|].
  eexists. split; [reflexivity|].
  destruct (contextSummary (outline d) i) as [ctx|e];
    destruct (truthy_str apiKey); cbn; auto.
  split; [reflexivity|]. intros [reason|text]; cbn; auto.
  repeat split; auto. intros [reason2|text2]; cbn; auto.
Qed.

(** X1.  Generate-chapter and twist on index [i], run to the end against
    any outcomes of the provider, change nothing of the session but the
    chapter at [i] and the alerts: every other chapter, the number of
    chapters, the premise, the cursor, the screen, the loading flag, the
    error and the downloads are as before, and chapter [i] keeps its id
    and its title. *)
Theorem chapter_handlers_touch_one_chapter (s : App) (i : Z) (os : list Outcome) :
  frame i s (fst (exec (handleGenerateChapter apiKey (novelData s) i) os s)) /\
  frame i s (fst (exec (handleTwist apiKey (novelData s) i) os s)).
Proof.
  split.
  - pose proof (handleGenerateChapter_shape (novelData s) i) as H.
    destruct (Arr.get (outline (novelData s)) i) as [c|] eqn:Hc.
    + destruct (truthy_str (content c) || truthy_bool (isGenerating c)).
      * rewrite H. apply frame_refl.
      * destruct H as (rest & -> & Hr). simpl. unfold markGenerating.
        eapply frame_trans; [apply (frame_patch s i (patch_generating true) c Hc)|].
        eapply exec_settles_frame; [exact Hr|].
        apply (patched_chapter s i (patch_generating true) c Hc).
    + rewrite H. apply frame_refl.
  - pose proof (handleTwist_shape (novelData s) i) as H.
    destruct (Arr.get (outline (novelData s)) i) as [c|] eqn:Hc.
    + destruct (truthy_bool (isGenerating c)).
      * rewrite H. apply frame_refl.
      * destruct H as (rest & -> & Hr). simpl. unfold markGenerating.
        eapply frame_trans; [apply (frame_patch s i (patch_generating true) c Hc)|].
        eapply exec_settles_frame; [exact Hr|].
        apply (patched_chapter s i (patch_generating true) c Hc).
    + rewrite H. apply frame_refl.
Qed.

End Frame.

(** ** Retrying a failed generation *)

Section Retry.

Variable apiKey : option string.

Lemma spread_dense cs : Arr.spread (Arr.dense cs) = Arr.dense cs.
Proof.
  unfold Arr.spread, Arr.dense. rewrite map_map. reflexivity.
Qed.

Lemma replace_dense cs : forall n c,
  exists cs', Arr.replace (Arr.dense cs) n c = Arr.dense cs' /\
              firstn n cs' = firstn n cs.
Proof.
  induction cs as [|d r IH]; intros [|n] c; simpl.
  - exists []. split; reflexivity.
  - exists []. split; reflexivity.
  - exists (c :: r). split; reflexivity.
  - destruct (IH n c) as (cs' & E & F). exists (d :: cs'). simpl.
    unfold Arr.dense in *. rewrite E, F. split; reflexivity.
Qed.

(** An update of chapter [i] in an outline of chapter objects gives an
    outline of chapter objects with the same chapters below [i]. *)
Lemma patch_dense s cs i p c :
  outline (novelData s) = Arr.dense cs ->
  chapterAt s i = Some c ->
  exists cs',
    outline (novelData (perform (setNovelData (PatchChapter i p)) s)) = Arr.dense cs' /\
    firstn (Z.to_nat i) cs' = firstn (Z.to_nat i) cs.
Proof.
  intros Hd Hc. unfold chapterAt in Hc. rewrite Hd in Hc.
  pose proof (ArrFacts.get_in_range _ _ _ Hc) as Hi.
  simpl. rewrite Hd, spread_dense. unfold Arr.set.
  destruct (Z.ltb_spec i 0); [lia|].
  destruct (Z.ltb_spec i (Arr.length (Arr.dense cs))); [|lia].
  apply replace_dense.
Qed.

(** X2.  In an outline of chapter objects, let chapter [i] have no
    content and not be generating, and the key be set.  After a
    generation whose request was rejected, generate-chapter is not
    guarded off: invoked again it sets the flag and sends the very same
    request as the first time, and when that one succeeds the chapter
    gets its content, the flag is false and the summary is the one it
    had. *)
Theorem failed_generation_can_be_retried
    (s : App) (cs : list Chapter) (i : Z) (c : Chapter)
    (reason : string) (text : option string) :
  outline (novelData s) = Arr.dense cs ->
  chapterAt s i = Some c ->
  truthy_str (content c) = false ->
  truthy_bool (isGenerating c) = false ->
  truthy_str apiKey = true ->
  let s1 := fst (exec (handleGenerateChapter apiKey (novelData s) i) [Rejected reason] s) in
  exists req k k1,
    run (handleGenerateChapter apiKey (novelData s) i) s
    = (perform (markGenerating i) s, Blocked req k) /\
    run (handleGenerateChapter apiKey (novelData s1) i) s1
    = (perform (markGenerating i) s1, Blocked req k1) /\
    exists c',
      chapterAt (fst (run (k1 (Resolved text)) (perform (markGenerating i) s1))) i
      = Some c' /\
      content c' = Some (or_str text NO_TEXT) /\
      isGenerating c' = Some false /\
      summary c' = summary c.
Proof.
  intros Hd Hc Hcont Hgen Hk s1.
  assert (Hi : 0 <= i) by (apply ArrFacts.get_in_range in Hc; lia).
  pose proof (contextSummary_dense cs i Hi) as Hctx. rewrite <- Hd in Hctx.
  (* the state after the failed attempt *)
  set (sa := perform (markGenerating i) s).
  set (sb := perform (setNovelData (PatchChapter i (patch_generating false))) sa).
  assert (Hs1 : s1 = perform (alert MSG_CHAPTER_FAILED) sb).
  { subst s1 sb sa. pose proof Hc as Hc'. unfold chapterAt in Hc'.
    unfold handleGenerateChapter, generateChapterContent.
    rewrite Hc', Hcont, Hgen, Hctx, Hk. reflexivity. }
  assert (Ha : chapterAt sa i = Some (apply_patch (patch_generating true) (Some c)))
    by apply (patched_chapter s i _ c Hc).
  destruct (patch_dense s cs i (patch_generating true) c Hd Hc) as (csa & Hda & Hfa).
  fold (markGenerating i) in Hda. fold sa in Hda.
  pose proof (patched_chapter sa i (patch_generating false) _ Ha) as Hb. fold sb in Hb.
  destruct (patch_dense sa csa i (patch_generating false) _ Hda Ha) as (csb & Hdb & Hfb).
  fold sb in Hdb.
  assert (H1 : chapterAt s1 i
               = Some (apply_patch (patch_generating false)
                         (Some (apply_patch (patch_generating true) (Some c)))))
    by (rewrite Hs1; exact Hb).
  assert (Hd1 : outline (novelData s1) = Arr.dense csb) by (rewrite Hs1; exact Hdb).
  pose proof (contextSummary_dense csb i Hi) as Hctx1. rewrite <- Hd1 in Hctx1.
  rewrite Hfb, Hfa in Hctx1.
  pose proof Hc as Hc'. unfold chapterAt in Hc'.
  pose proof H1 as H1'. unfold chapterAt in H1'.
  unfold handleGenerateChapter, generateChapterContent.
  rewrite Hc', Hcont, Hgen, Hctx, Hk, H1', Hctx1.
  cbn [apply_patch patch_generating p_summary p_content p_isGenerating content
         isGenerating truthy_bool]. rewrite Hcont.
  cbn [orb lift bind try_catch negb run act].
  do 3 eexists. split; [reflexivity|]. split.
  - assert (E : config (novelData s1) = config (novelData s))
      by (rewrite Hs1; reflexivity).
    rewrite E. reflexivity.
  - cbn [lift bind try_catch negb run act fst snd].
    eexists. split.
    + apply patched_twice. exact H1.
    + repeat split; reflexivity.
Qed.

End Retry.

Lemma failed_generation_can_be_retried_witness :
  let s1 := fst (exec (handleGenerateChapter Fixture.key (novelData Fixture.reading) 1)
                   [Rejected "offline"] Fixture.reading) in
  exists req k k1,
    run (handleGenerateChapter Fixture.key (novelData Fixture.reading) 1) Fixture.reading
    = (perform (markGenerating 1) Fixture.reading, Blocked req k) /\
    run (handleGenerateChapter Fixture.key (novelData s1) 1) s1
    = (perform (markGenerating 1) s1, Blocked req k1) /\
    exists c',
      chapterAt (fst (run (k1 (Resolved (Some "text"))) (perform (markGenerating 1) s1))) 1
      = Some c' /\
      content c' = Some (or_str (Some "text") NO_TEXT) /\
      isGenerating c' = Some false /\
      summary c' = summary Fixture.chapterC.
Proof.
  apply (failed_generation_can_be_retried Fixture.key Fixture.reading
           [Fixture.chapterA; Fixture.chapterC] 1 Fixture.chapterC "offline"
           (Some "text")); reflexivity.
Defined.

(** ** What the reader never changes *)

Section Frozen.

Variable apiKey : option string.
Variable JSON_parse : string -> option OutlineReply.

Lemma frozen_refl s : frozen s s.
Proof. unfold frozen. repeat split; eauto. Qed.

Lemma frozen_trans s1 s2 s3 : frozen s1 s2 -> frozen s2 s3 -> frozen s1 s3.
Proof.
  intros (A1 & A2 & A3 & A4) (B1 & B2 & B3 & B4).
  unfold frozen. repeat split; try congruence.
  intros i c Hc. destruct (A4 _ _ Hc) as (c2 & H2 & Hi & Ht).
  destruct (B4 _ _ H2) as (c3 & H3 & Hi3 & Ht3).
  exists c3. repeat split; congruence.
Qed.

Lemma frame_frozen i s s' : frame i s s' -> frozen s s'.
Proof.
  intros (A1 & A2 & A3 & A4 & A5 & A6 & A7 & A8 & A9).
  unfold frozen. repeat split; auto.
  intros j c Hc. destruct (Z.eq_dec j i) as [->|Hj]; [eauto|].
  exists c. rewrite A1; auto.
Qed.

Lemma perform_frozen n e s :
  reading_ok n s -> effect_ok n e -> frozen s (perform e s).
Proof.
  intros (Hst & Hnum & Hlen & Hcur) He.
  destruct e as [a|b|m|[nd|i p|k]| |m|f t]; simpl in He; try tauto;
    try (unfold frozen; cbn [perform appState novelData]; repeat split; eauto; fail).
  subst n. destruct (numbered_get _ _ Hnum He) as [c Hc].
  apply (frame_frozen i). now apply (frame_patch s i p c).
Qed.

Lemma run_frozen n : forall (t : task unit) s,
  task_ok n t -> reading_ok n s -> frozen s (fst (run t s)).
Proof.
  induction t as [a|e|e k IH|req k IH]; intros s Ht Hs; simpl in *;
    try apply frozen_refl.
  destruct Ht as [He Hk].
  eapply frozen_trans; [apply (perform_frozen n e s Hs He)|].
  apply IH; auto using perform_reading_ok.
Qed.

Lemma launch_frozen t sys :
  let n := Arr.length (outline (novelData (app sys))) in
  reading_ok n (app sys) -> task_ok n t -> frozen (app sys) (app (launch t sys)).
Proof.
  intros n Hs Ht. pose proof (run_frozen n t (app sys) Ht Hs) as H.
  unfold launch. destruct (run t (app sys)) as [s' [a|e|req k]]; exact H.
Qed.

(** X3.  Once a reachable session is on the reader it stays there:
    whatever event fires, the screen is still [READING], the premise is
    the same, the outline has the same number of chapters, and every
    chapter has the id and the title it had.  Chapters are created by
    the outline step only. *)
Theorem reader_keeps_outline (sys sys' : Sys) (ev : Event) :
  reachable apiKey JSON_parse sys ->
  appState (app sys) = READING ->
  fire apiKey JSON_parse sys ev = Some sys' ->
  appState (app sys') = READING /\
  config (novelData (app sys')) = config (novelData (app sys)) /\
  Arr.length (outline (novelData (app sys'))) = Arr.length (outline (novelData (app sys))) /\
  forall i c,
    chapterAt (app sys) i = Some c ->
    exists c', chapterAt (app sys') i = Some c' /\ id c' = id c /\ title c' = title c.
Proof.
  intros Hr Hst Hf.
  destruct (Inv_reading _ (reachable_Inv _ _ _ Hr) Hst) as [Hs Hp].
  assert (G : frozen (app sys) (app sys')).
  { destruct ev as [premise|i|i|i| | |n o]; simpl in Hf.
    - unfold isSetup in Hf. rewrite Hst in Hf. discriminate.
    - unfold isReading in Hf. rewrite Hst in Hf. injection Hf as <-.
      apply launch_frozen; auto. apply task_ok_handleGenerateChapter.
    - unfold isReading in Hf. rewrite Hst in Hf. injection Hf as <-.
      apply launch_frozen; auto. apply task_ok_handleTwist.
    - destruct (isReading (app sys) && (0 <=? i)
                && (i <? Arr.length (outline (novelData (app sys))))); [|discriminate].
      injection Hf as <-. unfold launch; simpl.
      unfold frozen; simpl. repeat split; eauto.
    - unfold isReading in Hf. rewrite Hst in Hf. injection Hf as <-.
      apply launch_frozen; auto. apply task_ok_handleExport.
    - destruct (truthy_str (error (app sys))); [|discriminate].
      injection Hf as <-. unfold launch, frozen; simpl. repeat split; eauto.
    - destruct (nth_error (pending sys) n) as [k|] eqn:Hk; [|discriminate].
      injection Hf as <-.
      apply (launch_frozen (k o) (mkSys (app sys) (drop_nth n (pending sys)))); auto.
      rewrite Forall_forall in Hp. apply Hp. eapply nth_error_In; eauto. }
  destruct G as (G1 & G2 & G3 & G4). rewrite G1. auto.
Qed.

Lemma numbered_get_id a : forall k i,
  numbered k a -> 0 <= i < Arr.length a ->
  exists c, Arr.get a i = Some c /\ id c = Some (k + i + 1).
Proof.
  induction a as [|[| |c] r IH]; intros k i Hn Hi; simpl in Hn; try tauto.
  - unfold Arr.length in Hi; simpl in Hi; lia.
  - destruct Hn as [Hc Hn].
    destruct (Z.eq_dec i 0) as [->|Hne].
    + exists c. split; [reflexivity|]. rewrite Hc. f_equal. lia.
    + destruct (IH (k + 1) (i - 1) Hn) as (d & Hd & Hid).
      * unfold Arr.length in *; simpl length in Hi; lia.
      * exists d. split.
        -- unfold Arr.get in *. destruct (Z.ltb_spec i 0); [lia|].
           destruct (Z.ltb_spec (i - 1) 0); [lia|].
           replace (Z.to_nat i) with (S (Z.to_nat (i - 1))) by lia. exact Hd.
        -- rewrite Hid. f_equal. lia.
Qed.

(** X4.  In every reachable session state the outline has no hole and no
    [undefined] element, and the chapter at index [i] has id [i + 1]:
    the ids are 1, 2, ... in outline order, whatever was generated,
    twisted or failed since the outline was created. *)
Theorem ids_are_contiguous (sys : Sys) (i : Z) :
  reachable apiKey JSON_parse sys ->
  0 <= i < Arr.length (outline (novelData (app sys))) ->
  exists c, chapterAt (app sys) i = Some c /\ id c = Some (i + 1).
Proof.
  intros Hr Hi. pose proof (reachable_numbered _ _ _ Hr) as Hn.
  destruct (numbered_get_id _ 0 i Hn Hi) as (c & Hc & Hid).
  exists c. split; [exact Hc|]. rewrite Hid. f_equal.
Qed.

End Frozen.

Lemma reader_keeps_outline_witness :
  appState (app Fixture2.twisting) = READING.
Proof.
  apply (reader_keeps_outline Fixture.key Fixture.parse Fixture.selected
           Fixture2.twisting (Twist 0)).
  - exists Fixture.events. reflexivity.
  - reflexivity.
  - reflexivity.
Defined.

Lemma ids_are_contiguous_witness :
  exists c, chapterAt (app Fixture.selected) 1 = Some c /\ id c = Some (1 + 1).
Proof.
  apply (ids_are_contiguous Fixture.key Fixture.parse Fixture.selected 1).
  - exists Fixture.events. reflexivity.
  - vm_compute. split; [discriminate|reflexivity].
Defined.

(** ** Navigation while a request is in flight *)

Section Navigation.

Variable apiKey : option string.
Variable JSON_parse : string -> option OutlineReply.

Lemma perform_cursor_commute n e s k :
  effect_ok n e ->
  perform e (perform (setNovelData (SetCursor k)) s)
  = perform (setNovelData (SetCursor k)) (perform e s).
Proof.
  destruct e as [a|b|m|[nd|i p|x]| |m|f t]; simpl; intros He; try tauto; reflexivity.
Qed.

Lemma run_cursor_commute n k : forall (t : task unit) s,
  task_ok n t ->
  run t (perform (setNovelData (SetCursor k)) s)
  = (perform (setNovelData (SetCursor k)) (fst (run t s)), snd (run t s)).
Proof.
  induction t as [a|e|e t IH|req c IH]; intros s Ht; cbn [run fst snd]; auto.
  destruct Ht as [He Ht]. rewrite (perform_cursor_commute n e s k He). now apply IH.
Qed.

(** X5.  On the reader of a reachable session, selecting a chapter and
    the settling of a request in flight commute: whether the user
    navigates to [k] before or after the provider answers, the session
    ends in the same state, with the same requests in flight.  A
    handler writes to the chapter it was started on, not to the one on
    screen. *)
Theorem select_commutes_with_settle (sys : Sys) (k : Z) (n : nat) (o : Outcome) :
  reachable apiKey JSON_parse sys ->
  appState (app sys) = READING ->
  0 <= k < Arr.length (outline (novelData (app sys))) ->
  (n < List.length (pending sys))%nat ->
  exists a b c,
    fire apiKey JSON_parse sys (Settle n o) = Some a /\
    fire apiKey JSON_parse sys (Select k) = Some b /\
    fire apiKey JSON_parse a (Select k) = Some c /\
    fire apiKey JSON_parse b (Settle n o) = Some c.
Proof.
  intros Hr Hst Hk Hn.
  destruct (Inv_reading _ (reachable_Inv _ _ _ Hr) Hst) as [Hs Hp].
  destruct (nth_error (pending sys) n) as [t|] eqn:Ht;
    [|apply nth_error_None in Ht; lia].
  assert (Hok : task_ok (Arr.length (outline (novelData (app sys)))) (t o)).
  { rewrite Forall_forall in Hp. apply Hp. eapply nth_error_In; eauto. }
  destruct (run_task_ok _ (t o) (app sys) Hok Hs) as [Hs' _].
  pose proof (run_cursor_commute _ k (t o) (app sys) Hok) as Hc.
  destruct Hs' as (Hst' & _ & Hlen' & _).
  exists (launch (t o) (mkSys (app sys) (drop_nth n (pending sys)))).
  exists (launch (handleSelectChapter k) sys).
  exists (launch (handleSelectChapter k)
            (launch (t o) (mkSys (app sys) (drop_nth n (pending sys))))).
  assert (Hsel : forall x,
             appState (app x) = READING ->
             Arr.length (outline (novelData (app x)))
             = Arr.length (outline (novelData (app sys))) ->
             fire apiKey JSON_parse x (Select k)
             = Some (launch (handleSelectChapter k) x)).
  { intros x Hx Hl. unfold fire, isReading. rewrite Hx, Hl.
    destruct (Z.leb_spec 0 k); [|lia].
    destruct (Z.ltb_spec k (Arr.length (outline (novelData (app sys))))); [|lia].
    reflexivity. }
  split; [unfold fire; now rewrite Ht|].
  split; [now apply Hsel|].
  split.
  - apply Hsel; unfold launch; cbn [app];
      destruct (run (t o) (app sys)) as [s' [u|e|req t']]; assumption.
  - unfold fire, launch, handleSelectChapter, act.
    cbn [run app pending fst snd]. rewrite Ht, Hc.
    destruct (run (t o) (app sys)) as [s' [u|e|req t']]; reflexivity.
Qed.

(** X6.  In a reachable session in which no chapter has content, export
    still offers the file [<title>.txt], and its text is empty: nothing
    guards the export of an unwritten novel. *)
Theorem export_without_content_is_empty (sys : Sys) :
  reachable apiKey JSON_parse sys ->
  (forall i c, chapterAt (app sys) i = Some c -> truthy_str (content c) = false) ->
  run (handleExport (novelData (app sys))) (app sys)
  = (perform (download (cfg Config.title (config (novelData (app sys))) ++ ".txt") "")
       (app sys),
     Finished tt).
Proof.
  intros Hr Hnone.
  pose proof (reachable_numbered _ _ _ Hr) as Hn.
  pose proof (numbered_dense _ _ Hn) as Hd.
  assert (Hf : filter (fun c => truthy_str (content c))
                 (objects (outline (novelData (app sys)))) = []).
  { assert (Hall : forall c, In c (objects (outline (novelData (app sys)))) ->
                             truthy_str (content c) = false).
    { intros c Hin. destruct (In_nth_error _ _ Hin) as [m Hm].
      apply (Hnone (Z.of_nat m) c). unfold chapterAt, Arr.get.
      destruct (Z.ltb_spec (Z.of_nat m) 0); [lia|].
      rewrite Hd, Nat2Z.id. unfold Arr.dense. rewrite nth_error_map, Hm. reflexivity. }
    revert Hall. generalize (objects (outline (novelData (app sys)))).
    induction l as [|c r IH]; intros Hall; simpl; auto.
    rewrite (Hall c (or_introl eq_refl)). apply IH. intros d Hin. apply Hall. now right. }
  unfold handleExport.
  remember (objects (outline (novelData (app sys)))) as chapters eqn:Hall.
  rewrite Hd, filter_obj_dense, Hf. reflexivity.
Qed.

End Navigation.

Lemma select_commutes_with_settle_witness :
  exists a b c,
    fire Fixture.key Fixture.parse Fixture2.generating (Settle 0 (Resolved (Some "text")))
    = Some a /\
    fire Fixture.key Fixture.parse Fixture2.generating (Select 1) = Some b /\
    fire Fixture.key Fixture.parse a (Select 1) = Some c /\
    fire Fixture.key Fixture.parse b (Settle 0 (Resolved (Some "text"))) = Some c.
Proof.
  apply (select_commutes_with_settle Fixture.key Fixture.parse Fixture2.generating 1 0
           (Resolved (Some "text"))).
  - exists Fixture2.generating_events. reflexivity.
  - reflexivity.
  - vm_compute. split; [discriminate|reflexivity].
  - vm_compute. lia.
Defined.

Lemma export_without_content_is_empty_witness :
  run (handleExport (novelData Fixture.reading)) Fixture.reading
  = (perform (download "T.txt" "") Fixture.reading, Finished tt).
Proof.
  apply (export_without_content_is_empty Fixture.key Fixture.parse
           (mkSys Fixture.reading [])).
  - exists [Submit Fixture.premise; Settle 0 (Resolved (Some Fixture.twoChaptersText))].
    reflexivity.
  - intros i c H. unfold chapterAt, Arr.get in H. simpl in H.
    destruct (i <? 0); [discriminate|].
    destruct (Z.to_nat i) as [|[|[|m]]]; simpl in H; try discriminate;
      injection H as <-; reflexivity.
Defined.

(** ** Requests in flight and flags *)

Section InFlight.

Variable apiKey : option string.
Variable JSON_parse : string -> option OutlineReply.

Lemma run_settles i : forall (t : task unit) b s c,
  settles i b t ->
  chapterAt s i = Some c ->
  truthy_bool (isGenerating c) = b ->
  frame i s (fst (run t s)) /\
  exists c',
    chapterAt (fst (run t s)) i = Some c' /\
    match snd (run t s) with
    | Blocked _ k => truthy_bool (isGenerating c') = true /\ forall o, settles i true (k o)
    | _ => truthy_bool (isGenerating c') = false
    end.
Proof.
  induction t as [a|e|e k IH|req k IH]; intros b s c Ht Hc Hb; cbn [run fst snd];
    cbn [settles] in Ht.
  - split; [apply frame_refl|]. exists c. split; congruence.
  - split; [apply frame_refl|]. exists c. split; congruence.
  - destruct e as [a|l|m|[nd|j p|x]| |m|f x]; try tauto.
    + destruct Ht as [-> Ht].
      pose proof (patched_chapter s i p c Hc) as H1.
      destruct (IH _ _ _ Ht H1) as [F G].
      { unfold apply_patch. cbn [isGenerating].
        destruct (p_isGenerating p) as [[|]|]; auto. }
      split; [|exact G].
      eapply frame_trans; [apply (frame_patch s i p c Hc)|exact F].
    + exact (IH _ s c Ht Hc Hb).
    + destruct (IH _ (perform (alert m) s) c Ht Hc Hb) as [F G].
      split; [|exact G].
      eapply frame_trans; [|exact F].
      unfold frame. repeat split; auto. intros c0 H0. eauto.
  - destruct Ht as [-> Ht]. split; [apply frame_refl|]. exists c. auto.
Qed.

Lemma flag_set_frame i s s' j :
  frame i s s' -> j <> i -> (flag_set s' j <-> flag_set s j).
Proof.
  intros (A1 & _) Hj. unfold flag_set. now rewrite (A1 j Hj).
Qed.

Lemma Forall2_nth {A B : Type} (R : A -> B -> Prop) l1 l2 :
  Forall2 R l1 l2 ->
  forall n y, nth_error l2 n = Some y -> exists x, nth_error l1 n = Some x /\ R x y.
Proof.
  induction 1 as [|x y l1 l2 Hxy H IH]; intros [|n] z Hn; simpl in *;
    try discriminate.
  - injection Hn as <-. eauto.
  - eauto.
Qed.

Lemma Forall2_drop_nth {A B : Type} (R : A -> B -> Prop) l1 l2 :
  Forall2 R l1 l2 -> forall n, Forall2 R (drop_nth n l1) (drop_nth n l2).
Proof.
  induction 1 as [|x y l1 l2 Hxy H IH]; intros [|n]; simpl; auto.
Qed.

Lemma NoDup_drop_nth {A : Type} (l : list A) :
  NoDup l ->
  forall n x, nth_error l n = Some x ->
    NoDup (drop_nth n l) /\ forall y, In y (drop_nth n l) <-> In y l /\ y <> x.
Proof.
  induction 1 as [|a l Ha Hl IH]; intros [|n] x Hn; simpl in *; try discriminate.
  - injection Hn as <-. split; [exact Hl|].
    intros y. split.
    + intros Hy. split; [now right|]. intros ->. contradiction.
    + intros [[->|Hy] Hne]; [congruence|exact Hy].
  - destruct (IH n x Hn) as [Hnd Hin]. split.
    + constructor; [|exact Hnd]. intros H. apply Hin in H. tauto.
    + intros y. rewrite Hin. split.
      * intros [->|[Hy Hne]]; [|tauto]. split; [now left|].
        intros ->. apply Ha. eapply nth_error_In; eauto.
      * intros [[->|Hy] Hne]; [now left|right; tauto].
  Qed.

Lemma NoDup_snoc {A : Type} (l : list A) x :
  NoDup l -> ~ In x l -> NoDup (l ++ [x]).
Proof.
  induction 1 as [|a l Ha Hl IH]; intros Hx; simpl.
  - constructor; [tauto|constructor].
  - constructor.
    + rewrite in_app_iff. simpl. intros [H|[H|[]]]; [tauto|]. subst. apply Hx. now left.
    + apply IH. intros H. apply Hx. now right.
Qed.

(** A chapter handler that got past its guard, started on the reader. *)
Lemma launch_marked sys i c rest :
  reading2 sys ->
  chapterAt (app sys) i = Some c ->
  truthy_bool (isGenerating c) = false ->
  settles i true rest ->
  reading2 (launch (Act (markGenerating i) rest) sys) /\
  appState (app (launch (Act (markGenerating i) rest) sys)) = appState (app sys).
Proof.
  intros (He & Hl & idxs & Hf & Hnd & Hin) Hc Hg Hr.
  set (sm := perform (markGenerating i) (app sys)).
  assert (Hm : chapterAt sm i = Some (apply_patch (patch_generating true) (Some c)))
    by apply (patched_chapter (app sys) i (patch_generating true) c Hc).
  destruct (run_settles i rest true sm _ Hr Hm eq_refl) as [F (c' & Hc' & Hst)].
  assert (F0 : frame i (app sys) (fst (run rest sm)))
    by (eapply frame_trans;
        [apply (frame_patch (app sys) i (patch_generating true) c Hc)|exact F]).
  assert (Hni : ~ In i idxs).
  { intros H. apply Hin in H. destruct H as (c0 & H0 & Hf0). congruence. }
  unfold launch. cbn [run]. fold sm.
  destruct (run rest sm) as [s' st]. cbn [fst snd] in *.
  destruct F0 as (A1 & A2 & A3 & A4 & A5 & A6 & A7 & A8 & A9).
  assert (Hoth : forall j, j <> i -> (flag_set s' j <-> In j idxs)).
  { intros j Hj. rewrite Hin. unfold flag_set. now rewrite (A1 j Hj). }
  destruct st as [u|e|req k]; (split; [|exact A5]); unfold reading2; cbn [app pending];
    (split; [congruence|]); (split; [congruence|]).
  - exists idxs. repeat split; auto.
    + intros H. destruct (Z.eq_dec i0 i) as [->|Hj]; [tauto|]. now apply Hoth.
    + intros H. destruct (Z.eq_dec i0 i) as [->|Hj]; [|now apply Hoth].
      destruct H as (c0 & H0 & Hf0). congruence.
  - exists idxs. repeat split; auto.
    + intros H. destruct (Z.eq_dec i0 i) as [->|Hj]; [tauto|]. now apply Hoth.
    + intros H. destruct (Z.eq_dec i0 i) as [->|Hj]; [|now apply Hoth].
      destruct H as (c0 & H0 & Hf0). congruence.
  - destruct Hst as [Hfl Hk]. exists (idxs ++ [i])%list. repeat split.
    + apply Forall2_app; auto.
    + now apply NoDup_snoc.
    + rewrite in_app_iff. simpl. intros [H|[<-|[]]].
      * destruct (Z.eq_dec i0 i) as [->|Hj]; [tauto|]. now apply Hoth.
      * exists c'. auto.
    + intros H. rewrite in_app_iff. simpl.
      destruct (Z.eq_dec i0 i) as [->|Hj]; [now right; left|].
      left. now apply Hoth.
Qed.

(** A request in flight on the reader settles. *)
Lemma settle_reading2 sys n k o :
  reading2 sys ->
  nth_error (pending sys) n = Some k ->
  reading2 (launch (k o) (mkSys (app sys) (drop_nth n (pending sys)))) /\
  appState (app (launch (k o) (mkSys (app sys) (drop_nth n (pending sys)))))
  = appState (app sys).
Proof.
  intros (He & Hl & idxs & Hf & Hnd & Hin) Hk.
  destruct (Forall2_nth _ _ _ Hf n k Hk) as (i & Hi & Hs).
  assert (Hfl : flag_set (app sys) i) by (apply Hin; eapply nth_error_In; eauto).
  destruct Hfl as (c & Hc & Hg).
  destruct (run_settles i (k o) true (app sys) c (Hs o) Hc Hg) as [F (c' & Hc' & Hst)].
  destruct (NoDup_drop_nth idxs Hnd n i Hi) as [Hnd' Hin'].
  unfold launch. cbn [app pending].
  destruct (run (k o) (app sys)) as [s' st]. cbn [fst snd] in *.
  destruct F as (A1 & A2 & A3 & A4 & A5 & A6 & A7 & A8 & A9).
  assert (Hoth : forall j, j <> i -> (flag_set s' j <-> In j idxs)).
  { intros j Hj. rewrite Hin. unfold flag_set. now rewrite (A1 j Hj). }
  destruct st as [u|e|req k']; (split; [|exact A5]); unfold reading2; cbn [app pending];
    (split; [congruence|]); (split; [congruence|]).
  - exists (drop_nth n idxs). repeat split; auto using Forall2_drop_nth.
    + intros H. apply Hin' in H. destruct H as [H Hj]. now apply Hoth.
    + intros H. apply Hin'. destruct (Z.eq_dec i0 i) as [->|Hj].
      * destruct H as (c0 & H0 & Hf0). congruence.
      * split; [now apply Hoth|exact Hj].
  - exists (drop_nth n idxs). repeat split; auto using Forall2_drop_nth.
    + intros H. apply Hin' in H. destruct H as [H Hj]. now apply Hoth.
    + intros H. apply Hin'. destruct (Z.eq_dec i0 i) as [->|Hj].
      * destruct H as (c0 & H0 & Hf0). congruence.
      * split; [now apply Hoth|exact Hj].
  - destruct Hst as [Hfl Hk']. exists (drop_nth n idxs ++ [i])%list. repeat split.
    + apply Forall2_app; auto using Forall2_drop_nth.
    + apply NoDup_snoc; auto. intros H. apply Hin' in H. tauto.
    + rewrite in_app_iff. simpl. intros [H|[<-|[]]].
      * apply Hin' in H. destruct H as [H Hj]. now apply Hoth.
      * exists c'. auto.
    + intros H. rewrite in_app_iff. simpl.
      destruct (Z.eq_dec i0 i) as [->|Hj]; [now right; left|].
      left. apply Hin'. split; [now apply Hoth|exact Hj].
Qed.

Lemma chaptersFrom_no_flag items : forall k i c,
  Arr.get (chaptersFrom k items) i = Some c -> isGenerating c = None.
Proof.
  intros k i c H. apply get_nth in H. rewrite chaptersFrom_nth in H.
  destruct (nth_error items (Z.to_nat i)); simpl in H; [|discriminate].
  injection H as <-. reflexivity.
Qed.

Lemma handleStart_from_setup2 premise s :
  appState s = SETUP ->
  (exists s',
     run (handleStart apiKey JSON_parse premise) s = (s', Finished tt) /\
     appState s' = SETUP /\ isLoading s' = false) \/
  (exists s' req k,
     run (handleStart apiKey JSON_parse premise) s = (s', Blocked req k) /\
     appState s' = SETUP /\ error s' = None /\ forall o, start_ok2 (k o)).
Proof.
  intros Hs. unfold handleStart, generateNovelOutline.
  destruct (truthy_str apiKey); cbn [negb bind act try_catch try_finally run].
  - right. do 3 eexists. split; [reflexivity|].
    split; [exact Hs|]. split; [reflexivity|].
    intros o s2 Hs2 He2.
    destruct o as [reason|[[|a b]|]];
      cbn [negb bind act try_catch try_finally run];
      try (eexists; split; [reflexivity|]; split; [reflexivity|]; left; exact Hs2).
    destruct (JSON_parse (String a b)) as [[[elements|]]|];
      cbn [chapters negb bind act try_catch try_finally run];
      try (eexists; split; [reflexivity|]; split; [reflexivity|]; left; exact Hs2).
    destruct (objectItems elements) as [items|e];
      cbn [lift chapters negb bind act try_catch try_finally run];
      try (eexists; split; [reflexivity|]; split; [reflexivity|]; left; exact Hs2).
    eexists; split; [reflexivity|]. split; [reflexivity|]. right.
    split; [reflexivity|]. split; [exact He2|].
    intros i (c & Hc & Hf). unfold chapterAt in Hc; simpl in Hc.
    apply chaptersFrom_no_flag in Hc. rewrite Hc in Hf. discriminate.
  - left. eexists. split; [reflexivity|]. split; [exact Hs|reflexivity].
Qed.

Lemma fire_preserves_Inv2 sys ev sys' :
  Inv sys -> Inv2 sys -> fire apiKey JSON_parse sys ev = Some sys' -> Inv2 sys'.
Proof.
  intros HI H2 Hf. destruct ev as [premise|i|i|i| | |n o]; simpl in Hf.
  - (* Submit *)
    destruct (isSetup (app sys)) eqn:Hst; [|discriminate].
    destruct (isLoading (app sys)) eqn:Hl; [discriminate|].
    injection Hf as <-. apply isSetup_true in Hst.
    unfold Inv in HI. rewrite Hst in HI.
    destruct HI as [Hs [[_ Hp]|[Hl' _]]]; [|congruence].
    unfold launch.
    destruct (handleStart_from_setup2 premise _ Hst)
      as [(s' & -> & Hs' & Hl')|(s' & req & k & -> & Hs' & He' & Hk)];
      unfold Inv2; cbn [app pending]; rewrite Hs'.
    + congruence.
    + intros _. split; [exact He'|]. rewrite Hp. intros k' [<-|[]]. exact Hk.
  - (* Generate *)
    destruct (isReading (app sys)) eqn:Hst; [|discriminate].
    injection Hf as <-. apply isReading_true in Hst.
    unfold Inv2 in H2. rewrite Hst in H2.
    pose proof (handleGenerateChapter_shape apiKey (novelData (app sys)) i) as Hsh.
    destruct (Arr.get (outline (novelData (app sys))) i) as [c|] eqn:Hc.
    + destruct (truthy_str (content c) || truthy_bool (isGenerating c)) eqn:Hg.
      * rewrite Hsh. unfold Inv2, launch; cbn [run app pending]. now rewrite Hst.
      * destruct Hsh as (rest & -> & Hr). apply orb_false_elim in Hg.
        destruct (launch_marked sys i c rest H2 Hc (proj2 Hg) Hr) as [G1 G2].
        unfold Inv2. rewrite G2, Hst. exact G1.
    + rewrite Hsh. unfold Inv2, launch; cbn [run app pending]. now rewrite Hst.
  - (* Twist *)
    destruct (isReading (app sys)) eqn:Hst; [|discriminate].
    injection Hf as <-. apply isReading_true in Hst.
    unfold Inv2 in H2. rewrite Hst in H2.
    pose proof (handleTwist_shape apiKey (novelData (app sys)) i) as Hsh.
    destruct (Arr.get (outline (novelData (app sys))) i) as [c|] eqn:Hc.
    + destruct (truthy_bool (isGenerating c)) eqn:Hg.
      * rewrite Hsh. unfold Inv2, launch; cbn [run app pending]. now rewrite Hst.
      * destruct Hsh as (rest & -> & Hr).
        destruct (launch_marked sys i c rest H2 Hc Hg Hr) as [G1 G2].
        unfold Inv2. rewrite G2, Hst. exact G1.
    + rewrite Hsh. unfold Inv2, launch; cbn [run app pending]. now rewrite Hst.
  - (* Select *)
    destruct (isReading (app sys)) eqn:Hst; [|discriminate].
    destruct (Z.leb_spec 0 i); [|discriminate].
    destruct (Z.ltb_spec i (Arr.length (outline (novelData (app sys))))); [|discriminate].
    injection Hf as <-. apply isReading_true in Hst.
    unfold Inv2 in *. unfold launch; simpl. rewrite Hst in *. exact H2.
  - (* Export *)
    destruct (isReading (app sys)) eqn:Hst; [|discriminate].
    injection Hf as <-. apply isReading_true in Hst.
    unfold Inv2 in *. rewrite Hst in H2.
    unfold launch, handleExport.
    destruct (Arr.filter_obj _ (outline (novelData (app sys)))); simpl;
      rewrite Hst; exact H2.
  - (* DismissError *)
    destruct (truthy_str (error (app sys))); [|discriminate].
    injection Hf as <-. unfold Inv2, launch in *; simpl.
    destruct (appState (app sys)); auto.
    + intros Hl. split; [reflexivity|]. now apply H2.
    + destruct H2 as (_ & Hl & Hx). split; [reflexivity|]. split; assumption.
  - (* Settle *)
    destruct (nth_error (pending sys) n) as [k|] eqn:Hk; [|discriminate].
    injection Hf as <-.
    unfold Inv in HI. unfold Inv2 in H2.
    destruct (appState (app sys)) eqn:Hst; [| tauto |].
    + destruct HI as [Hs [[_ Hp]|[Hl (k0 & Hp & _)]]].
      * rewrite Hp in Hk. destruct n; discriminate.
      * destruct (H2 Hl) as [He Hk2].
        assert (Hin : In k (pending sys)) by (eapply nth_error_In; eauto).
        destruct (Hk2 k Hin o _ Hs He) as (s' & Hrun & Hl' & Hs').
        rewrite Hp in Hk |- *.
        destruct n as [|n]; [|destruct n; discriminate].
        unfold launch; cbn [app pending drop_nth]. rewrite Hrun.
        unfold Inv2; cbn [app pending].
        destruct Hs' as [Hs'|(Hr & He' & Hno)].
        -- rewrite (proj1 Hs'). congruence.
        -- rewrite Hr. split; [exact He'|]. split; [exact Hl'|].
           exists []. repeat split; auto using NoDup_nil.
           ++ intros [].
           ++ intros H. exact (Hno _ H).
    + destruct (settle_reading2 sys n k o H2 Hk) as [G1 G2].
      unfold Inv2. rewrite G2, Hst. exact G1.
Qed.

Lemma reachable_Inv2 sys : reachable apiKey JSON_parse sys -> Inv2 sys.
Proof.
  intros [evs H].
  assert (G : forall evs s0 s1,
             Inv s0 -> Inv2 s0 ->
             fire_all apiKey JSON_parse s0 evs = Some s1 -> Inv2 s1).
  { clear. induction evs as [|ev rest IH]; intros s0 s1 HI H2 Hf; simpl in Hf.
    - now injection Hf as <-.
    - destruct (fire apiKey JSON_parse s0 ev) as [s|] eqn:E; [|discriminate].
      apply (IH s s1); [exact (fire_preserves_Inv _ _ _ _ _ HI E)
                       |exact (fire_preserves_Inv2 _ _ _ HI H2 E)|exact Hf]. }
  eapply G; eauto using Inv_initial.
  unfold Inv2; simpl. discriminate.
Qed.





Lemma reading_no_error sys :
  reachable apiKey JSON_parse sys ->
  appState (app sys) = READING ->
  error (app sys) = None /\ isLoading (app sys) = false.
Proof.
  intros Hr Hst. pose proof (reachable_Inv2 _ Hr) as H2.
  unfold Inv2 in H2. rewrite Hst in H2.
  destruct H2 as (He & Hl & _). now split.
Qed.

(** X8.  On the reader of a reachable session the error message is
    never set and the loading flag is off: the error toast belongs to
    the outline step, and a failed generation or twist is reported by an
    alert only. *)
Theorem reader_shows_no_error (sys : Sys) :
  reachable apiKey JSON_parse sys ->
  appState (app sys) = READING ->
  error (app sys) = None /\ isLoading (app sys) = false.
Proof. exact (reading_no_error sys). Qed.

(** X9.  On the form of a reachable session there are no chapters and
    the cursor is 0; the loading flag is set exactly while the one
    outline request is in flight, no error is shown while it is, and a
    second submission is refused until it has settled. *)
Theorem form_loading_flag (sys : Sys) :
  reachable apiKey JSON_parse sys ->
  appState (app sys) = SETUP ->
  outline (novelData (app sys)) = [] /\
  currentChapterIndex (novelData (app sys)) = 0 /\
  List.length (pending sys) = (if isLoading (app sys) then 1 else 0)%nat /\
  (isLoading (app sys) = true ->
   error (app sys) = None /\
   forall premise, fire apiKey JSON_parse sys (Submit premise) = None).
Proof.
  intros Hr Hst. pose proof (reachable_Inv _ _ _ Hr) as HI.
  pose proof (reachable_Inv2 _ Hr) as H2.
  unfold Inv in HI. unfold Inv2 in H2. rewrite Hst in HI, H2.
  destruct HI as [(_ & Ho & Hc) Hp].
  split; [exact Ho|]. split; [exact Hc|]. split.
  - destruct Hp as [[-> ->]|[-> (k & -> & _)]]; reflexivity.
  - intros Hl. split; [now apply H2|].
    intros premise. simpl. rewrite Hl. now rewrite andb_false_r.
Qed.

End InFlight.


Lemma reader_shows_no_error_witness :
  error (app Fixture.selected) = None /\ isLoading (app Fixture.selected) = false.
Proof.
  apply (reader_shows_no_error Fixture.key Fixture.parse Fixture.selected).
  - exists Fixture.events. reflexivity.
  - reflexivity.
Defined.

Lemma form_loading_flag_witness :
  List.length (pending Fixture2.loading)
  = (if isLoading (app Fixture2.loading) then 1 else 0)%nat.
Proof.
  apply (form_loading_flag Fixture.key Fixture.parse Fixture2.loading).
  - exists [Submit Fixture.premise]. reflexivity.
  - reflexivity.
Defined.

(** ** What the reader offers *)

Section Reader.

Variable apiKey : option string.
Variable JSON_parse : string -> option OutlineReply.

Lemma sideBar_range a : forall k l i,
  sideBar k a = Ok l -> In i l -> k <= i < k + Arr.length a.
Proof.
  unfold Arr.length.
  induction a as [|[| |c] r IH]; intros k l i H Hin; simpl in H; try discriminate.
  - injection H as <-. destruct Hin.
  - specialize (IH _ _ i H Hin). simpl length. lia.
  - destruct (sideBar (k + 1) r) as [l'|e] eqn:E; [|discriminate].
    injection H as <-. simpl length. destruct Hin as [<-|Hin]; [lia|].
    specialize (IH _ _ i E Hin). lia.
Qed.

Lemma sideBar_numbered a : forall k k', numbered k' a -> exists l, sideBar k a = Ok l.
Proof.
  induction a as [|[| |c] r IH]; intros k k' H; simpl in *; try tauto; eauto.
  destruct H as [_ H]. destruct (IH (k + 1) _ H) as [l ->]. eauto.
Qed.

(** X10.  On the reader of a reachable session the chapter under the
    cursor exists exactly when the outline has a chapter.  After an
    outline step that produced no chapter there is none, and the render
    of the reader, which reads [currentChapter.id], raises a
    [TypeError].  With at least one chapter,
    [data.outline[data.currentChapterIndex]] is a chapter object, and so
    is every element the side bar maps over: the render reads no
    property of [undefined].  Whether React can display the values of a
    chapter's members is no part of this statement. *)
Theorem reader_current_chapter_iff_chapters (sys : Sys) :
  reachable apiKey JSON_parse sys ->
  appState (app sys) = READING ->
  let d := novelData (app sys) in
  (outline d = [] ->
   Arr.get (outline d) (currentChapterIndex d) = None /\
   renderApp (app sys) = Raise TypeError) /\
  (outline d <> [] ->
   (exists currentChapter,
      Arr.get (outline d) (currentChapterIndex d) = Some currentChapter) /\
   (exists buttons, sideBar 0 (outline d) = Ok buttons)).
Proof.
  intros Hr Hst d. subst d. split.
  - intros E.
    assert (G : Arr.get (outline (novelData (app sys)))
                  (currentChapterIndex (novelData (app sys))) = None).
    { rewrite E. apply ArrFacts.get_out_of_range. unfold Arr.length; simpl. lia. }
    split; [exact G|].
    unfold renderApp, renderReader. rewrite Hst, G, E. reflexivity.
  - intros Hne.
    pose proof (reachable_numbered _ _ _ Hr) as Hn.
    pose proof (reachable_cursor _ _ _ Hr Hne) as Hc.
    split.
    + destruct (numbered_get _ _ Hn Hc) as [c Hg]. now exists c.
    + destruct (sideBar_numbered _ 0 _ Hn) as [l Hl]. now exists l.
Qed.

Lemma renderReader_next data v k :
  renderReader data (isGeneratingProp data) = Ok v ->
  nextChapter v = Some k ->
  contentPanel v = true /\
  k = currentChapterIndex data + 1 /\
  0 <= k < Arr.length (outline data).
Proof.
  unfold renderReader, isGeneratingProp.
  destruct (sideBar 0 (outline data)) as [l|e]; [|discriminate].
  destruct (Arr.get (outline data) (currentChapterIndex data)) as [c|] eqn:Hc;
    [|discriminate].
  intros H. injection H as <-. cbn.
  apply ArrFacts.get_in_range in Hc.
  destruct (truthy_str (content c)), (truthy_bool (isGenerating c)); cbn;
    intros Hk; try discriminate.
  destruct (Z.ltb_spec (currentChapterIndex data) (Arr.length (outline data) - 1));
    [|discriminate].
  injection Hk as <-. repeat split; lia.
Qed.

(** X11.  Whenever the reader renders, it shows exactly one of its three
    panels: the stub panel (no content, not generating), the generating
    panel, or the content panel (content, not generating).  With the
    [isGenerating] prop that [App] passes, the audio and twist buttons
    of the header are shown exactly with the content panel; and the
    "next chapter" button exists only in the content panel and leads to
    the next index, which is an index of the outline. *)
Theorem reader_shows_one_panel (data : NovelData) (v : ReaderView) :
  renderReader data (isGeneratingProp data) = Ok v ->
  (stubPanel v = true /\ generatingPanel v = false /\ contentPanel v = false \/
   stubPanel v = false /\ generatingPanel v = true /\ contentPanel v = false \/
   stubPanel v = false /\ generatingPanel v = false /\ contentPanel v = true) /\
  audioButton v = contentPanel v /\
  twistButton v = contentPanel v /\
  forall k, nextChapter v = Some k ->
    contentPanel v = true /\
    k = currentChapterIndex data + 1 /\
    0 <= k < Arr.length (outline data).
Proof.
  intros Hv. split; [|split; [|split]].
  4: { intros k. now apply renderReader_next. }
  all: unfold renderReader, isGeneratingProp in Hv;
    destruct (sideBar 0 (outline data)) as [l|e]; [|discriminate];
    destruct (Arr.get (outline data) (currentChapterIndex data)) as [c|];
    [|discriminate]; injection Hv as <-; cbn;
    destruct (truthy_str (content c)), (truthy_bool (isGenerating c)); cbn;
    auto; tauto.
Qed.

(** X12.  On the reader, every button that is rendered, the audio
    button apart, leads to an event the session accepts: the side bar and the "next chapter"
    button select indices of the outline only; and where the reader
    offers generate or twist, the handler is not stopped by its guard
    and does not raise: its first act is to set the flag of the chapter
    on screen. *)
Theorem reader_buttons_are_live (sys : Sys) (v : ReaderView) (ev : Event) :
  appState (app sys) = READING ->
  let data := novelData (app sys) in
  renderReader data (isGeneratingProp data) = Ok v ->
  In ev (offers data v) ->
  (exists sys', fire apiKey JSON_parse sys ev = Some sys') /\
  match ev with
  | Select k => 0 <= k < Arr.length (outline data)
  | Generate i =>
      i = currentChapterIndex data /\
      exists rest, handleGenerateChapter apiKey data i = Act (markGenerating i) rest
  | Twist i =>
      i = currentChapterIndex data /\
      exists rest, handleTwist apiKey data i = Act (markGenerating i) rest
  | Export => True
  | _ => False
  end.
Proof.
  intros Hst data Hv Hin. subst data.
  pose proof (fun k => renderReader_next (novelData (app sys)) v k Hv) as Hnext.
  unfold renderReader, isGeneratingProp in Hv.
  destruct (sideBar 0 (outline (novelData (app sys)))) as [l|e] eqn:Hl; [|discriminate].
  destruct (Arr.get (outline (novelData (app sys))) (currentChapterIndex (novelData (app sys)))) as [c|] eqn:Hc;
    [|discriminate].
  injection Hv as Hv. subst v. cbn [chapterButtons twistButton stubPanel nextChapter] in *.
  assert (Hsel : forall k, 0 <= k < Arr.length (outline (novelData (app sys))) ->
                 exists sys', fire apiKey JSON_parse sys (Select k) = Some sys').
  { intros k Hk. unfold fire, isReading. rewrite Hst.
    destruct (Z.leb_spec 0 k); [|lia].
    destruct (Z.ltb_spec k (Arr.length (outline (novelData (app sys))))); [|lia].
    eexists; reflexivity. }
  assert (Hgen : truthy_str (content c) = false -> truthy_bool (isGenerating c) = false ->
                 exists rest, handleGenerateChapter apiKey (novelData (app sys)) (currentChapterIndex (novelData (app sys)))
                              = Act (markGenerating (currentChapterIndex (novelData (app sys)))) rest).
  { intros H1 H2.
    pose proof (handleGenerateChapter_shape apiKey (novelData (app sys)) (currentChapterIndex (novelData (app sys)))) as Hs.
    rewrite Hc, H1, H2 in Hs. destruct Hs as (rest & Hs & _). eauto. }
  assert (Htw : truthy_bool (isGenerating c) = false ->
                exists rest, handleTwist apiKey (novelData (app sys)) (currentChapterIndex (novelData (app sys)))
                             = Act (markGenerating (currentChapterIndex (novelData (app sys)))) rest).
  { intros H2.
    pose proof (handleTwist_shape apiKey (novelData (app sys)) (currentChapterIndex (novelData (app sys)))) as Hs.
    rewrite Hc, H2 in Hs. destruct Hs as (rest & Hs & _). eauto. }
  assert (Hfire : forall e, (match e with Generate _ | Twist _ | Export => True
                             | _ => False end) ->
                  exists sys', fire apiKey JSON_parse sys e = Some sys').
  { intros [p|i|i|i| | |n o] He; try contradiction;
      unfold fire, isReading; rewrite Hst; eexists; reflexivity. }
  unfold offers in Hin. rewrite !in_app_iff in Hin.
  destruct Hin as [Hin|[Hin|[Hin|[Hin|Hin]]]].
  - apply in_map_iff in Hin. destruct Hin as (k & <- & Hk).
    pose proof (sideBar_range _ _ _ _ Hl Hk) as Hr.
    assert (0 <= k < Arr.length (outline (novelData (app sys)))) by lia. auto.
  - destruct Hin as [<-|[]]. split; [now apply Hfire|exact I].
  - destruct (truthy_str (content c)), (truthy_bool (isGenerating c)) eqn:Hg;
      cbn in Hin; try contradiction.
    destruct Hin as [<-|[]]. split; [now apply Hfire|]. split; auto.
  - destruct (truthy_str (content c)) eqn:Hcont, (truthy_bool (isGenerating c)) eqn:Hg;
      cbn in Hin; try contradiction.
    destruct Hin as [<-|[<-|[]]]; (split; [now apply Hfire|]); split; auto.
  - match type of Hin with In _ (match ?x with _ => _ end) =>
      destruct x as [k|] eqn:Hk; [|contradiction] end.
    destruct Hin as [<-|[]]. destruct (Hnext k Hk) as (_ & _ & Hr). auto.
Qed.

End Reader.

Lemma reader_current_chapter_iff_chapters_witness :
  let d := novelData (app Fixture.selected) in
  outline d <> [] /\
  (exists currentChapter,
     Arr.get (outline d) (currentChapterIndex d) = Some currentChapter) /\
  (exists buttons, sideBar 0 (outline d) = Ok buttons).
Proof.
  split; [discriminate|].
  apply (reader_current_chapter_iff_chapters Fixture.key Fixture.parse Fixture.selected).
  - exists Fixture.events. reflexivity.
  - reflexivity.
  - discriminate.
Defined.

Lemma reader_shows_one_panel_witness :
  audioButton
    (mkReaderView [0; 1] true true false false true None) = true.
Proof.
  apply (reader_shows_one_panel (novelData (app Fixture.selected))
           (mkReaderView [0; 1] true true false false true None)).
  reflexivity.
Defined.

Lemma reader_buttons_are_live_witness :
  exists sys', fire Fixture.key Fixture.parse (mkSys Fixture.reading []) (Generate 0)
               = Some sys'.
Proof.
  apply (reader_buttons_are_live Fixture.key Fixture.parse (mkSys Fixture.reading [])
           (mkReaderView [0; 1] false false true false false None) (Generate 0)).
  - reflexivity.
  - reflexivity.
  - simpl. auto.
Defined.

(** ** Without a key *)

Section NoKey.

Variable apiKey : option string.
Variable JSON_parse : string -> option OutlineReply.

(** X13.  When no API key is configured, a session never leaves the
    form and never has a request in flight: every submission ends at
    once with the error message set, the loading flag off and no
    chapters. *)
Theorem no_key_never_leaves_form (sys : Sys) :
  truthy_str apiKey = false ->
  reachable apiKey JSON_parse sys ->
  appState (app sys) = SETUP /\
  pending sys = [] /\
  isLoading (app sys) = false /\
  novelData (app sys) = novelData initialApp /\
  (forall premise sys',
     fire apiKey JSON_parse sys (Submit premise) = Some sys' ->
     error (app sys') = Some MSG_OUTLINE_FAILED).
Proof.
  intros Hk [evs Hr].
  assert (P : forall evs s0 s1,
             appState (app s0) = SETUP /\ pending s0 = [] /\
             isLoading (app s0) = false /\ novelData (app s0) = novelData initialApp ->
             fire_all apiKey JSON_parse s0 evs = Some s1 ->
             appState (app s1) = SETUP /\ pending s1 = [] /\
             isLoading (app s1) = false /\ novelData (app s1) = novelData initialApp).
  { clear sys evs Hr. induction evs as [|ev rest IH]; intros s0 s1 H0 Hf; simpl in Hf.
    - now injection Hf as <-.
    - destruct (fire apiKey JSON_parse s0 ev) as [s|] eqn:E; [|discriminate].
      apply (IH s s1); [|exact Hf]. clear IH Hf.
      destruct H0 as (Hst & Hp & Hl & Hd).
      destruct ev as [premise|i|i|i| | |n o]; simpl in E;
        unfold isSetup, isReading in E; try rewrite Hst in E; try discriminate.
      + rewrite Hl in E. injection E as <-.
        unfold launch, handleStart, generateNovelOutline. rewrite Hk.
        cbn [negb bind act try_catch try_finally run app pending appState isLoading
               novelData perform]. auto.
      + destruct (truthy_str (error (app s0))); [|discriminate].
        injection E as <-. unfold launch; simpl. auto.
      + rewrite Hp in E. destruct n; discriminate. }
  assert (Hinit : appState (app initialSys) = SETUP /\ pending initialSys = [] /\
                  isLoading (app initialSys) = false /\
                  novelData (app initialSys) = novelData initialApp)
    by (repeat split; reflexivity).
  destruct (P evs initialSys sys Hinit Hr) as (Hst & Hp & Hl & Hd).
  repeat split; auto.
  intros premise sys' Hf. simpl in Hf. unfold isSetup in Hf. rewrite Hst, Hl in Hf.
  injection Hf as <-.
  unfold launch, handleStart, generateNovelOutline. rewrite Hk. reflexivity.
Qed.

End NoKey.

Lemma no_key_never_leaves_form_witness :
  appState (app Fixture2.keyless) = SETUP.
Proof.
  apply (no_key_never_leaves_form None Fixture.parse Fixture2.keyless).
  - reflexivity.
  - exists Fixture2.keyless_events. reflexivity.
Defined.

(** ** The form *)

Section Form.

Variable apiKey : option string.
Variable JSON_parse_idea : string -> option NovelConfig.

Lemma config_eta (c : NovelConfig) :
  Config.mk (Config.title c) (Config.genre c) (Config.tone c) (Config.protagonist c)
    (Config.setting c) (Config.plotSummary c) (Config.targetAudience c) = c.
Proof. destruct c; reflexivity. Qed.

Lemma applyEdits_keeps edits : forall f,
  isRandomizing (applyEdits edits f) = isRandomizing f /\
  started (applyEdits edits f) = started f.
Proof.
  unfold applyEdits.
  induction edits as [|[fd v] r IH]; intros f; cbn [fold_left]; auto.
  destruct (IH (fst (prun performForm (handleChange (fst (fd, v)) (snd (fd, v))) f)))
    as [E1 E2].
  rewrite E1, E2. split; reflexivity.
Qed.

(** X14.  Randomize sets [isRandomizing] before the request and always
    ends with it cleared.  When the reply is accepted (key set, text not
    empty, text parses) the form holds exactly the premise of the reply,
    every field replaced, the genre and tone being whatever strings the
    reply has.  In every other case (no key, rejected request, empty
    text, malformed JSON) the form holds the premise it held: the
    failure changes nothing the user sees.  Nothing is submitted. *)
Theorem randomize_settles (f : FormState) (o : Outcome) :
  let t := handleRandomize apiKey JSON_parse_idea in
  let r := pexec performForm t [o] f in
  (truthy_str apiKey = true ->
   exists req k,
     prun performForm t f
     = (mkForm (formConfig f) true (started f), Waiting req k)) /\
  snd r = Settled tt /\
  isRandomizing (fst r) = false /\
  started (fst r) = started f /\
  formConfig (fst r)
  = match acceptedIdea apiKey JSON_parse_idea o with
    | Some idea => idea
    | None => formConfig f
    end.
Proof.
  unfold handleRandomize, generateRandomNovelIdea, acceptedIdea.
  destruct (truthy_str apiKey); cbn; [|repeat split; discriminate].
  split; [intros _; do 2 eexists; reflexivity|].
  destruct o as [reason|[[|a b]|]]; cbn; auto.
  destruct (JSON_parse_idea (String a b)) as [idea|]; cbn; auto.
  repeat split. apply config_eta.
Qed.

(** X15.  A random idea that arrives late wins: whatever fields the
    user edits while the request is in flight, when the reply is
    accepted the form holds the premise of the reply and the edits are
    gone; when it is not, the form holds the edited premise.  Either
    way [isRandomizing] ends cleared. *)
Theorem late_idea_replaces_edits
    (f : FormState) (edits : list (Field * string)) (o : Outcome) :
  truthy_str apiKey = true ->
  exists req k,
    prun performForm (handleRandomize apiKey JSON_parse_idea) f
    = (mkForm (formConfig f) true (started f), Waiting req k) /\
    let edited := applyEdits edits (mkForm (formConfig f) true (started f)) in
    let r := prun performForm (k o) edited in
    isRandomizing edited = true /\
    snd r = Settled tt /\
    isRandomizing (fst r) = false /\
    formConfig (fst r)
    = match acceptedIdea apiKey JSON_parse_idea o with
      | Some idea => idea
      | None => formConfig edited
      end.
Proof.
  intros Hk. unfold handleRandomize, generateRandomNovelIdea, acceptedIdea.
  rewrite Hk. cbn [negb pbind pcatch pfinally prun performForm].
  do 2 eexists. split; [reflexivity|].
  destruct (applyEdits_keeps edits (mkForm (formConfig f) true (started f))) as [He _].
  cbn [isRandomizing] in He.
  split; [exact He|].
  destruct o as [reason|[[|a b]|]];
    cbn [negb pbind pcatch pfinally prun performForm fst snd isRandomizing formConfig];
    auto.
  destruct (JSON_parse_idea (String a b)) as [idea|];
    cbn [negb pbind pcatch pfinally prun performForm fst snd isRandomizing formConfig];
    auto.
  repeat split. apply config_eta.
Qed.

Ltac speech_none Hno :=
  cbn; split;
  [intros audio; split;
   [discriminate
   |intros H; destruct (Hno audio H) as (_ & cs' & ps' & E); discriminate]
  |reflexivity].

(** X16.  With the key set, [generateSpeech] resolves exactly when the
    first part of the first candidate of the response carries non-empty
    inline data, and then to that data; later candidates and parts are
    never looked at.  In every other case of a resolved response it
    rejects with the fixed "no audio" error, and a rejected request is
    passed on. *)
Theorem speech_is_first_inline_data (text : string) :
  truthy_str apiKey = true ->
  exists req k,
    @generateSpeech apiKey FormEffect text = Ask req k /\
    speech_text req = speechPrompt text /\
    (forall reason, k (SpeechRejected reason) = Reject (Rejection reason)) /\
    forall response,
      (forall audio,
         k (SpeechResolved response) = Return audio <->
         audio <> "" /\
         exists cand cands ct part ps inl,
           Speech.candidates response = Some (cand :: cands) /\
           Speech.content cand = Some ct /\
           Speech.parts ct = Some (part :: ps) /\
           Speech.inlineData part = Some inl /\
           Speech.data inl = Some audio) /\
      ((forall audio, k (SpeechResolved response) <> Return audio) ->
       k (SpeechResolved response) = Reject (Error ERR_AUDIO)).
Proof.
  intros Hk. unfold generateSpeech. rewrite Hk. cbn [negb].
  do 2 eexists. split; [reflexivity|]. split; [reflexivity|].
  split; [reflexivity|].
  intros [cands].
  assert (Hno : forall audio : string,
            (audio <> "" /\
             exists cand cs ct part ps inl,
               cands = Some (cand :: cs) /\
               Speech.content cand = Some ct /\
               Speech.parts ct = Some (part :: ps) /\
               Speech.inlineData part = Some inl /\
               Speech.data inl = Some audio) ->
            audio <> "" /\
            exists cs ps,
              cands = Some (Speech.mkCandidate
                              (Some (Speech.mkContent
                                       (Some (Speech.mkPart
                                                (Some (Speech.mkInlineData (Some audio)))
                                              :: ps)))) :: cs)).
  { intros audio (Hne & cand & cs & ct & part & ps & inl & H1 & H2 & H3 & H4 & H5).
    destruct cand as [c0], ct as [p0], part as [i0], inl as [d0].
    cbn in *. subst. eauto. }
  cbn [Speech.candidates].
  destruct cands as [[|cand cs]|]; [speech_none Hno| |speech_none Hno].
  destruct cand as [[ct|]]; [|speech_none Hno].
  destruct ct as [[[|part ps]|]]; [speech_none Hno| |speech_none Hno].
  destruct part as [[inl|]]; [|speech_none Hno].
  destruct inl as [[[|x y]|]]; [| |speech_none Hno].
  - cbn. split; [|reflexivity]. intros audio. split; [discriminate|].
    intros H. destruct (Hno audio H) as (Hne & cs' & ps' & E).
    injection E as E _ _. congruence.
  - cbn. split.
    + intros audio. split.
      * intros H. injection H as <-. split; [discriminate|].
        do 6 eexists. repeat split; reflexivity.
      * intros H. destruct (Hno audio H) as (_ & cs' & ps' & E).
        injection E as -> _ _. reflexivity.
    + intros H. exfalso. exact (H _ eq_refl).
Qed.

End Form.

Lemma late_idea_replaces_edits_witness :
  exists req k,
    prun performForm (handleRandomize Fixture.key (fun _ => Some Fixture.premise))
      initialForm
    = (mkForm (formConfig initialForm) true (started initialForm), Waiting req k) /\
    let edited := applyEdits [(f_title, "mine")]
                    (mkForm (formConfig initialForm) true (started initialForm)) in
    let r := prun performForm (k (Resolved (Some "{}"))) edited in
    isRandomizing edited = true /\
    snd r = Settled tt /\
    isRandomizing (fst r) = false /\
    formConfig (fst r)
    = match acceptedIdea Fixture.key (fun _ => Some Fixture.premise)
              (Resolved (Some "{}")) with
      | Some idea => idea
      | None => formConfig edited
      end.
Proof.
  apply (late_idea_replaces_edits Fixture.key (fun _ => Some Fixture.premise)
           initialForm [(f_title, "mine")] (Resolved (Some "{}"))).
  reflexivity.
Defined.

Lemma speech_is_first_inline_data_witness :
  exists req k,
    @generateSpeech Fixture.key FormEffect "text" = Ask req k /\
    speech_text req = speechPrompt "text".
Proof.
  destruct (speech_is_first_inline_data Fixture.key "text" eq_refl)
    as (req & k & H1 & H2 & _).
  exists req, k. split; assumption.
Defined.

(** ** A twist and the context of later chapters *)

Section TwistContext.

Variable apiKey : option string.

Lemma exec_settles_dense i : forall (t : task unit) b s os c cs,
  settles i b t ->
  chapterAt s i = Some c ->
  outline (novelData s) = Arr.dense cs ->
  exists cs', outline (novelData (fst (exec t os s))) = Arr.dense cs'.
Proof.
  induction t as [a|e|e k IH|req k IH]; intros b s os c cs Ht Hc Hd; simpl in *; eauto.
  - destruct e as [a|l|m|[nd|j p|x]| |m|f x]; try tauto.
    + destruct Ht as [-> Ht].
      destruct (patch_dense s cs i p c Hd Hc) as (cs1 & Hd1 & _).
      eapply IH; [exact Ht| |exact Hd1]. apply (patched_chapter s i p c Hc).
    + eapply IH; eauto.
    + eapply (IH _ (perform (alert m) s)); eauto.
  - destruct Ht as [_ Ht]. destruct os as [|o os]; simpl; eauto.
Qed.

(** X17.  In an outline of chapter objects, let chapter [i] not be
    generating and the key be set.  Once a twist of chapter [i] has
    received a non-empty rewrite, whether or not its content request
    succeeds, the context that any later chapter [j] builds has as its
    line for chapter [i] the rewritten summary: the twist reaches every
    generation that is started after it. *)
Theorem twisted_summary_reaches_later_context
    (s : App) (cs : list Chapter) (i j : Z) (c : Chapter) (text : string) (o2 : Outcome) :
  outline (novelData s) = Arr.dense cs ->
  chapterAt s i = Some c ->
  truthy_bool (isGenerating c) = false ->
  truthy_str apiKey = true ->
  text <> "" ->
  i < j <= Arr.length (outline (novelData s)) ->
  let s1 := fst (exec (handleTwist apiKey (novelData s) i) [Resolved (Some text); o2] s) in
  exists lines,
    contextSummary (outline (novelData s1)) j = Ok (String.concat LF lines) /\
    List.length lines = Z.to_nat j /\
    nth_error lines (Z.to_nat i)
    = Some (CHAPTER_WORD ++ " " ++ tpl_num (id c) ++ ": " ++ text).
Proof.
  intros Hd Hc Hg Hk Hne Hj s1.
  assert (Hi : 0 <= i) by (apply ArrFacts.get_in_range in Hc; lia).
  pose proof (contextSummary_dense cs i Hi) as Hctx. rewrite <- Hd in Hctx.
  pose proof Hc as Hc'. unfold chapterAt in Hc'.
  (* the chapter after the twist *)
  assert (H1 : exists c', chapterAt s1 i = Some c' /\ summary c' = Some text
                          /\ id c' = id c).
  { subst s1. unfold handleTwist, generatePlotTwist, generateChapterContent.
    rewrite Hc', Hg, Hctx, Hk.
    cbn [lift bind try_catch negb run exec act fst snd].
    assert (Et : or_str_opt (Some text) (summary c) = Some text)
      by (destruct text; [congruence|reflexivity]).
    rewrite Et.
    destruct o2 as [reason|text2];
      cbn [lift bind try_catch negb run exec act fst snd];
      unfold markGenerating; eexists;
      (split; [repeat first [rewrite chapterAt_alert | apply patched_chapter]; exact Hc|]);
      split; reflexivity. }
  destruct H1 as (c' & Hc1 & Hs1 & Hid1).
  (* the outline after the twist *)
  assert (H2 : exists cs1, outline (novelData s1) = Arr.dense cs1 /\
                           Arr.length (outline (novelData s1))
                           = Arr.length (outline (novelData s))).
  { subst s1. pose proof (handleTwist_shape apiKey (novelData s) i) as Hsh.
    rewrite Hc', Hg in Hsh. destruct Hsh as (rest & -> & Hr). cbn [exec].
    destruct (patch_dense s cs i (patch_generating true) c Hd Hc) as (csm & Hdm & _).
    pose proof (patched_chapter s i (patch_generating true) c Hc) as Hm.
    destruct (exec_settles_dense i rest true _ [Resolved (Some text); o2] _ csm Hr Hm Hdm)
      as (cs1 & Hd1).
    exists cs1. split; [exact Hd1|].
    pose proof (exec_settles_frame i rest true _ [Resolved (Some text); o2] _ Hr Hm)
      as (_ & Hl & _).
    unfold markGenerating in *. rewrite Hl.
    apply (patch_keeps_length s i (patch_generating true) c Hc). }
  destruct H2 as (cs1 & Hd1 & Hlen).
  exists (map contextLine (firstn (Z.to_nat j) cs1)).
  assert (Hlen1 : List.length cs1 = List.length (outline (novelData s))).
  { unfold Arr.length in Hlen. rewrite Hd1 in Hlen. unfold Arr.dense in Hlen.
    rewrite length_map in Hlen. lia. }
  unfold Arr.length in Hj.
  split; [rewrite Hd1; apply contextSummary_dense; lia|].
  split.
  - rewrite length_map, firstn_length_le; lia.
  - rewrite nth_error_map, nth_error_firstn.
    assert (E : (Z.to_nat i <? Z.to_nat j)%nat = true) by (apply Nat.ltb_lt; lia).
    rewrite E.
    unfold chapterAt in Hc1. rewrite Hd1 in Hc1. apply get_nth in Hc1.
    unfold Arr.dense in Hc1. rewrite nth_error_map in Hc1.
    destruct (nth_error cs1 (Z.to_nat i)) as [d|]; [|discriminate].
    injection Hc1 as ->. cbn [option_map]. unfold contextLine.
    rewrite Hs1, Hid1. reflexivity.
Qed.

End TwistContext.

Lemma twisted_summary_reaches_later_context_witness :
  let s1 := fst (exec (handleTwist Fixture.key (novelData Fixture.reading) 0)
                   [Resolved (Some "E"); Rejected "offline"] Fixture.reading) in
  exists lines,
    contextSummary (outline (novelData s1)) 1 = Ok (String.concat LF lines) /\
    List.length lines = Z.to_nat 1 /\
    nth_error lines (Z.to_nat 0)
    = Some (CHAPTER_WORD ++ " " ++ tpl_num (id Fixture.chapterA) ++ ": " ++ "E").
Proof.
  apply (twisted_summary_reaches_later_context Fixture.key Fixture.reading
           [Fixture.chapterA; Fixture.chapterC] 0 1 Fixture.chapterA "E"
           (Rejected "offline")); try reflexivity.
  - discriminate.
  - vm_compute. split; [reflexivity|discriminate].
Defined.
